(** * The enhanced campus crawler (webscraper_code.py)

  A shallow embedding of the crawl scheduling and resilience code:
  URL validation, the frontier queue with its visited set, the
  per-page retry routine, the periodic driver restart, title
  extraction and the upsert into the [pages] table.

  External collaborators (the browser, the HTML parser, PostgreSQL)
  are not re-implemented.  Their answers are read from a [World] of
  oracles, and every general theorem is quantified over all worlds. *)

From Stdlib Require Import ZArith String Ascii List Bool Lia.
From stdpp Require Import base strings gmap sets list.
From Equations Require Import Equations.

Local Open Scope string_scope.
Local Open Scope list_scope.
Local Open Scope Z_scope.

(* ===================================================================== *)
(** ** Python string methods used by the crawler *)
(* ===================================================================== *)

Module PyStr.

Definition is_slash (c : ascii) : bool := Ascii.eqb c "/"%char.

(** [s.rstrip('/')]: every trailing slash is removed. *)
Fixpoint rstrip_slash (s : string) : string :=
  match s with
  | EmptyString => EmptyString
  | String c s' =>
      match rstrip_slash s' with
      | EmptyString => if is_slash c then EmptyString else String c EmptyString
      | r => String c r
      end
  end.

(** [s.startswith(p)]. *)
Definition startswith (s p : string) : bool := String.prefix p s.

(** [s.endswith(p)]. *)
Definition endswith (s p : string) : bool :=
  String.prefix (String.rev p) (String.rev s).

(** [k in s] for strings: [k] occurs in [s] as a substring. *)
Fixpoint contains (k s : string) : bool :=
  String.prefix k s ||
  match s with
  | EmptyString => false
  | String _ s' => contains k s'
  end.

(** [s.lower()] on the ASCII letters. *)
Definition lower_char (c : ascii) : ascii :=
  let n := nat_of_ascii c in
  if ((65 <=? n)%nat && (n <=? 90)%nat)%bool then ascii_of_nat (n + 32) else c.

Fixpoint lower (s : string) : string :=
  match s with
  | EmptyString => EmptyString
  | String c s' => String (lower_char c) (lower s')
  end.

(** Whitespace as [str.strip()] sees it on ASCII input. *)
Definition is_space (c : ascii) : bool :=
  let n := nat_of_ascii c in
  (((9 <=? n)%nat && (n <=? 13)%nat) || ((28 <=? n)%nat && (n <=? 32)%nat))%bool.

Fixpoint lstrip (s : string) : string :=
  match s with
  | EmptyString => EmptyString
  | String c s' => if is_space c then lstrip s' else s
  end.

Fixpoint rstrip (s : string) : string :=
  match s with
  | EmptyString => EmptyString
  | String c s' =>
      match rstrip s' with
      | EmptyString => if is_space c then EmptyString else String c EmptyString
      | r => String c r
      end
  end.

(** [s.strip()]. *)
Definition strip (s : string) : string := rstrip (lstrip s).

(** Truthiness of a [str]: only the empty string is falsy. *)
Definition truthy (s : string) : bool :=
  match s with EmptyString => false | _ => true end.

End PyStr.

(* ===================================================================== *)
(** ** [urllib.parse.urlparse(url).netloc] *)
(* ===================================================================== *)

Module Url.

Definition is_alpha (c : ascii) : bool :=
  let n := nat_of_ascii c in
  (((65 <=? n)%nat && (n <=? 90)%nat) || ((97 <=? n)%nat && (n <=? 122)%nat))%bool.

Definition is_digit (c : ascii) : bool :=
  let n := nat_of_ascii c in ((48 <=? n)%nat && (n <=? 57)%nat)%bool.

(** The library's [scheme_chars]: letters, digits, [+], [-], [.]. *)
Definition is_scheme_char (c : ascii) : bool :=
  (is_alpha c || is_digit c || Ascii.eqb c "+"%char
   || Ascii.eqb c "-"%char || Ascii.eqb c "."%char)%bool.

(** When [s] is a run of scheme characters followed by a colon, the part
    after that colon. *)
Fixpoint after_scheme (s : string) : option string :=
  match s with
  | EmptyString => None
  | String c s' =>
      if Ascii.eqb c ":"%char then Some s'
      else if is_scheme_char c then after_scheme s' else None
  end.

(** The text left once a leading [scheme:] has been removed.  A scheme
    is recognised when the first colon is not at index 0, the first
    character is a letter and all characters before the colon are
    scheme characters. *)
Definition drop_scheme (url : string) : string :=
  match url with
  | String c _ =>
      if is_alpha c then
        match after_scheme url with
        | Some rest => rest
        | None => url
        end
      else url
  | EmptyString => url
  end.

Definition is_netloc_delim (c : ascii) : bool :=
  (Ascii.eqb c "/"%char || Ascii.eqb c "?"%char || Ascii.eqb c "#"%char)%bool.

Fixpoint until_delim (s : string) : string :=
  match s with
  | EmptyString => EmptyString
  | String c s' => if is_netloc_delim c then EmptyString else String c (until_delim s')
  end.

(** The network location: what follows a leading [//] up to the first
    of [/], [?], [#].  Leading control characters, embedded tabs and
    newlines, and the bracket checks of IPv6 literals are outside this
    model. *)
Definition netloc (url : string) : string :=
  match drop_scheme url with
  | String "/" (String "/" rest) => until_delim rest
  | _ => EmptyString
  end.

End Url.

(* ===================================================================== *)
(** ** The parsed document, as the crawler reads it through BeautifulSoup *)
(* ===================================================================== *)

Module Soup.

(** A parse tree: text, comments and tags with attributes and children. *)
Local Unset Elimination Schemes.
Inductive Node : Type :=
| NavigableString (s : string)
| Comment (s : string)
| Tag (name : string) (attrs : list (string * string)) (contents : list Node).
Local Set Elimination Schemes.

(** A document is the list of its top-level nodes. *)
Definition Document : Type := list Node.

(** [find_all(name)] below one node, in document order. *)
Fixpoint find_all_in (name : string) (n : Node) : list Node :=
  match n with
  | Tag nm _ cs =>
      (if String.eqb nm name then [n] else [])
      ++ (fix go (l : list Node) : list Node :=
            match l with
            | [] => []
            | c :: l' => find_all_in name c ++ go l'
            end) cs
  | _ => []
  end.

Definition find_all (name : string) (doc : Document) : list Node :=
  concat (map (find_all_in name) doc).

(** [soup.find(name)]: the first such tag, or [None]. *)
Definition find (name : string) (doc : Document) : option Node :=
  head (find_all name doc).

(** The [.string] property: a text node is its own string; a tag with
    exactly one child has the string of that child; any other tag has
    none. *)
Fixpoint string_of (n : Node) : option string :=
  match n with
  | NavigableString s => Some s
  | Comment s => Some s
  | Tag _ _ cs =>
      match cs with
      | [c] => string_of c
      | _ => None
      end
  end.

(** Text strings below a node, comments left out. *)
Fixpoint strings_in (n : Node) : list string :=
  match n with
  | NavigableString s => [s]
  | Comment _ => []
  | Tag _ _ cs =>
      (fix go (l : list Node) : list string :=
         match l with
         | [] => []
         | c :: l' => strings_in c ++ go l'
         end) cs
  end.

(** [sep.join(parts)]. *)
Fixpoint join (sep : string) (parts : list string) : string :=
  match parts with
  | [] => EmptyString
  | [p] => p
  | p :: ps => (p ++ sep ++ join sep ps)%string
  end.

(** [tag.get_text(separator=sep, strip=True)]. *)
Definition get_text (sep : string) (n : Node) : string :=
  join sep (List.filter PyStr.truthy (map PyStr.strip (strings_in n))).

(** [s.split('\n')]. *)
Fixpoint split_lines (s : string) : list string :=
  match s with
  | EmptyString => [EmptyString]
  | String c s' =>
      if Ascii.eqb c "010"%char then EmptyString :: split_lines s'
      else match split_lines s' with
           | l :: ls => String c l :: ls
           | [] => [String c EmptyString]
           end
  end.

(** [tag.get(key, '')]. *)
Fixpoint get_attr (key : string) (attrs : list (string * string)) : string :=
  match attrs with
  | [] => EmptyString
  | (k, v) :: rest => if String.eqb k key then v else get_attr key rest
  end.

Definition has_attr (key value : string) (n : Node) : bool :=
  match n with
  | Tag _ attrs _ =>
      existsb (fun kv => String.eqb (fst kv) key && String.eqb (snd kv) value)%bool attrs
  | _ => false
  end.

(** [soup.find('meta', attrs={'name': value})] followed by
    [.get('content', '')], the empty string when there is no such tag. *)
Definition meta_content (value : string) (doc : Document) : string :=
  match head (List.filter (has_attr "name" value) (find_all "meta" doc)) with
  | Some (Tag _ attrs _) => get_attr "content" attrs
  | _ => EmptyString
  end.

(** The text of the body: joined with spaces, then blank lines dropped. *)
Definition cleaned_content (doc : Document) : string :=
  match find "body" doc with
  | Some body =>
      join (String "010"%char EmptyString)
        (List.filter PyStr.truthy (map PyStr.strip (split_lines (get_text " " body))))
  | None => EmptyString
  end.

(** The non-empty stripped texts of all tags of one heading level. *)
Definition heading_texts (name : string) (doc : Document) : list string :=
  List.filter PyStr.truthy (map (get_text EmptyString) (find_all name doc)).

(** Line 268:
    [soup.title.string.strip() if soup.title and soup.title.string else 'No Title']. *)
Definition title_tag (doc : Document) : string :=
  match find "title" doc with
  | Some t =>
      match string_of t with
      | Some s => if PyStr.truthy s then PyStr.strip s else "No Title"
      | None => "No Title"
      end
  | None => "No Title"
  end.

End Soup.

(* ===================================================================== *)
(** ** The [pages] table and the connection *)
(* ===================================================================== *)

Module Db.

(** The dictionary [scraped_data] / [failed_data].  The key
    ['retry_count'] is present in some literals and absent in others,
    hence the option; every other key is present in all of them. *)
Record PageData : Type := mkPageData {
  url : string;
  title : string;
  content : string;
  h1_tags : string;
  h2_tags : string;
  h3_tags : string;
  meta_description : string;
  meta_keywords : string;
  page_depth : Z;
  retry_count : option Z;
  status : string
}.

(** A stored row, without its key [url]; the serial [id] and the
    [scraped_at] timestamp are left out. *)
Record Row : Type := mkRow {
  col_title : string;
  col_content : string;
  col_h1_tags : string;
  col_h2_tags : string;
  col_h3_tags : string;
  col_meta_description : string;
  col_meta_keywords : string;
  col_page_depth : Z;
  col_retry_count : Z;
  col_status : string
}.

(** The parameter tuple of the INSERT (lines 129-141):
    [scraped_data.get('retry_count', 0)] supplies 0 for a missing key. *)
Definition row_of (d : PageData) : Row :=
  {| col_title := title d;
     col_content := content d;
     col_h1_tags := h1_tags d;
     col_h2_tags := h2_tags d;
     col_h3_tags := h3_tags d;
     col_meta_description := meta_description d;
     col_meta_keywords := meta_keywords d;
     col_page_depth := page_depth d;
     col_retry_count := default 0 (retry_count d);
     col_status := status d |}.

(** The statements the crawler sends. *)
Inductive Stmt : Type :=
| Truncate
| CreatePages
| CreateOther
| Upsert (key : string) (r : Row).

(** One connection: the committed [pages] table ([None] while the table
    does not exist), the view of the open transaction, and whether that
    transaction is in the failed state in which the server refuses
    further statements. *)
Record Conn : Type := mkConn {
  committed : option (gmap string Row);
  working : option (gmap string Row);
  aborted : bool
}.

(** What a statement does to the table inside the transaction, [None]
    when the server rejects it. *)
Definition apply_stmt (st : Stmt) (t : option (gmap string Row))
  : option (option (gmap string Row)) :=
  match st, t with
  | Truncate, Some _ => Some (Some ∅)
  | Truncate, None => None
  | CreatePages, Some tb => Some (Some tb)
  | CreatePages, None => Some (Some ∅)
  | CreateOther, _ => Some t
  | Upsert k r, Some tb => Some (Some (<[k := r]> tb))
  | Upsert _ _, None => None
  end.

(** [cursor.execute(st)]: [true] on success; [false] stands for a raised
    [psycopg2.Error].  [fault] is an error outside the statement itself
    (lost connection, server failure). *)
Definition execute (fault : bool) (st : Stmt) (c : Conn) : bool * Conn :=
  if aborted c then (false, c)
  else if fault then (false, mkConn (committed c) (working c) true)
  else match apply_stmt st (working c) with
       | Some t' => (true, mkConn (committed c) t' false)
       | None => (false, mkConn (committed c) (working c) true)
       end.

(** [conn.commit()]. A commit of a failed transaction rolls it back. *)
Definition commit (fault : bool) (c : Conn) : bool * Conn :=
  if fault then (false, mkConn (committed c) (working c) true)
  else if aborted c then (true, mkConn (committed c) (committed c) false)
  else (true, mkConn (working c) (working c) false).

(** [conn.rollback()]. *)
Definition rollback (c : Conn) : Conn :=
  mkConn (committed c) (committed c) false.

End Db.

(* ===================================================================== *)
(** ** The crawler *)
(* ===================================================================== *)

Module Crawler.
Import Db.

(** The module-level configuration read from the environment. *)
Record Config : Type := mkConfig {
  START_URL : string;
  MAX_DEPTH : Z;
  SKIP_KEYWORDS : list string;
  DRIVER_RESTART_INTERVAL : Z;
  MAX_RETRIES : Z;
  PAGE_LIMIT : Z
}.

(** [DOMAIN = urllib.parse.urlparse(START_URL).netloc]. *)
Definition DOMAIN (cfg : Config) : string := Url.netloc (START_URL cfg).

(** What one pass through the [try] body of [scrape_page_with_retry]
    meets before it builds the record: the parsed page source, a
    [TimeoutException], or any other exception. *)
Inductive Fetched : Type :=
| Rendered (soup : Soup.Document)
| TimedOut
| Raised.

(** The answers of the collaborators.  [browse url k] is the result of the
    [k]-th [driver.get] of the run; [page_links url k] lists the values
    of [full_url] that the link loop of lines 442-452 goes through when it
    reads the page source after [k] navigations (the loop may stop early
    on an exception: the list is what it processed); [db_fault k] tells
    whether the [k]-th database call fails for an outside reason;
    [driver_starts k] whether the [k]-th [get_driver()] returns. *)
Record World : Type := mkWorld {
  connects : bool;
  db_fault : nat -> bool;
  driver_starts : nat -> bool;
  browse : string -> nat -> Fetched;
  page_links : string -> nat -> list string
}.

(** What the run does, newest event first. *)
Inductive Event : Type :=
| EvGet (u : string) (retry : Z)
| EvUpsert (d : PageData) (stored : bool)
| EvRestart (pages : Z)
| EvScrape (page : Z) (u : string) (depth : Z)
| EvEnqueue (u : string) (depth : Z) (parent : string).

(** The mutable surroundings of the crawl: the connection, how many
    database calls, navigations and driver creations have happened, and
    the history. *)
Record Env : Type := mkEnv {
  conn : Conn;
  db_ops : nat;
  gets : nat;
  drivers : nat;
  trace : list Event
}.

Definition set_conn (c : Conn) (ops : nat) (e : Env) : Env :=
  mkEnv c ops (gets e) (drivers e) (trace e).

Definition log (ev : Event) (e : Env) : Env :=
  mkEnv (conn e) (db_ops e) (gets e) (drivers e) (ev :: trace e).

Definition skip_extensions : list string :=
  [".pdf"; ".jpg"; ".jpeg"; ".png"; ".gif"; ".bmp"; ".svg"; ".zip"; ".rar";
   ".mp3"; ".mp4"; ".avi"; ".mov"; ".css"; ".js"; ".xml"; ".json"; ".txt"].

Definition reject_prefixes : list string :=
  ["mailto:"; "tel:"; "#"; "javascript:"].

(** [is_valid_url(url, domain, visited)], taking [SKIP_KEYWORDS] as an
    argument. *)
Definition is_valid_url (keywords : list string)
    (url domain : string) (visited : gset string) : bool :=
  if negb (PyStr.truthy url) || existsb (PyStr.startswith url) reject_prefixes
  then false
  else
    let normalized_url := PyStr.rstrip_slash url in
    if negb (String.eqb (Url.netloc normalized_url) domain) then false
    else if bool_decide (normalized_url ∈ visited) then false
    else if existsb (PyStr.endswith (PyStr.lower normalized_url)) skip_extensions
    then false
    else if existsb (fun keyword => PyStr.contains keyword (PyStr.lower normalized_url))
              keywords
    then false
    else true.

(** Line 448: [any(url_in_queue.rstrip('/') == full_url.rstrip('/') ...)]. *)
Definition is_already_in_queue (urls_to_visit : list (string * Z))
    (full_url : string) : bool :=
  existsb (fun entry => String.eqb (PyStr.rstrip_slash (fst entry))
                                   (PyStr.rstrip_slash full_url))
          urls_to_visit.

Section Run.

Context (cfg : Config) (W : World).

(** [insert_data(conn, scraped_data)]: execute and commit inside the
    [try]; a [psycopg2.Error] from either is caught, logged and followed
    by [conn.rollback()].  The function returns normally in both cases;
    [conn.rollback()] itself is taken not to raise. *)
Definition insert_data (scraped_data : PageData) (e : Env) : Env :=
  let st := Upsert (url scraped_data) (row_of scraped_data) in
  match execute (db_fault W (db_ops e)) st (conn e) with
  | (true, c1) =>
      match commit (db_fault W (S (db_ops e))) c1 with
      | (true, c2) =>
          log (EvUpsert scraped_data true) (set_conn c2 (S (S (db_ops e))) e)
      | (false, c2) =>
          log (EvUpsert scraped_data false)
              (set_conn (rollback c2) (S (S (db_ops e))) e)
      end
  | (false, c1) =>
      log (EvUpsert scraped_data false) (set_conn (rollback c1) (S (db_ops e)) e)
  end.

(** The record built on the success path (lines 276-288). *)
Definition scraped_data_of (soup : Soup.Document) (u : string) (depth retry : Z)
  : PageData :=
  {| url := PyStr.rstrip_slash u;
     title := Soup.title_tag soup;
     content := Soup.cleaned_content soup;
     h1_tags := Soup.join " | " (Soup.heading_texts "h1" soup);
     h2_tags := Soup.join " | " (Soup.heading_texts "h2" soup);
     h3_tags := Soup.join " | " (Soup.heading_texts "h3" soup);
     meta_description := Soup.meta_content "description" soup;
     meta_keywords := Soup.meta_content "keywords" soup;
     page_depth := depth;
     retry_count := Some retry;
     status := "success" |}.

(** The two [failed_data] literals (lines 302-313 and 324-335); neither
    has a ['retry_count'] key. *)
Definition failed_data_of (u : string) (depth : Z) (ttl st : string) : PageData :=
  {| url := PyStr.rstrip_slash u;
     title := ttl;
     content := EmptyString;
     h1_tags := EmptyString;
     h2_tags := EmptyString;
     h3_tags := EmptyString;
     meta_description := EmptyString;
     meta_keywords := EmptyString;
     page_depth := depth;
     retry_count := None;
     status := st |}.

(** [driver.get(url)] and what follows it inside the [try]. *)
Definition navigate (u : string) (retry : Z) (e : Env) : Fetched * Env :=
  (browse W u (gets e),
   mkEnv (conn e) (db_ops e) (S (gets e)) (drivers e) (EvGet u retry :: trace e)).

(** [scrape_page_with_retry(driver, url, depth, conn, retry_count)].
    The driver and the connection live in [Env].  The recursion follows
    the source: a retry is a call of the function on itself with
    [retry_count + 1], made only while [retry_count < MAX_RETRIES]. *)
Equations? scrape_page_with_retry (u : string) (depth : Z) (retry : Z) (e : Env)
  : (PageData * bool) * Env by wf (Z.to_nat (MAX_RETRIES cfg - retry)) lt :=
scrape_page_with_retry u depth retry e with navigate u retry e => {
  | (Rendered soup, e1) =>
      let scraped_data := scraped_data_of soup u depth retry in
      ((scraped_data, true), insert_data scraped_data e1)
  | (TimedOut, e1) with Z_lt_dec retry (MAX_RETRIES cfg) => {
      | left _ => scrape_page_with_retry u depth (retry + 1) e1
      | right _ =>
          let failed_data := failed_data_of u depth "Failed to load" "failed" in
          ((failed_data, false), insert_data failed_data e1) }
  | (Raised, e1) with Z_lt_dec retry (MAX_RETRIES cfg) => {
      | left _ => scrape_page_with_retry u depth (retry + 1) e1
      | right _ =>
          let failed_data := failed_data_of u depth "Error occurred" "error" in
          ((failed_data, false), insert_data failed_data e1) } }.
Proof. all: lia. Qed.

(** The local variables of [crawl_website] that the loop updates, and
    the surroundings. *)
Record Crawl : Type := mkCrawl {
  urls_to_visit : list (string * Z);
  visited_urls : gset string;
  pages_scraped_count : Z;
  env : Env
}.

(** Where the run stands: still looping, ended normally (empty queue or
    page limit), or ended by an exception that reached the handlers of
    [crawl_website]. *)
Inductive Status : Type := Running | Finished | Aborted.

(** [get_driver()]: [None] when creating the browser raises. *)
Definition get_driver (e : Env) : option Env :=
  if driver_starts W (drivers e)
  then Some (mkEnv (conn e) (db_ops e) (gets e) (S (drivers e)) (trace e))
  else None.

(** [restart_driver(driver)]: errors of [driver.quit()] are swallowed,
    then a new driver is created. *)
Definition restart_driver (e : Env) : option Env := get_driver e.

(** The body of the [for a_tag in ...] loop (lines 442-452) over the
    resolved links of one page.  The queue test sees the links appended
    earlier in the same loop; the visited set does not change here. *)
Fixpoint add_links (links : list string) (normalized_url : string)
    (current_depth : Z) (visited : gset string)
    (queue : list (string * Z)) (e : Env) : list (string * Z) * Env :=
  match links with
  | [] => (queue, e)
  | full_url :: rest =>
      if negb (is_already_in_queue queue full_url)
         && is_valid_url (SKIP_KEYWORDS cfg) full_url (DOMAIN cfg) visited
      then add_links rest normalized_url current_depth visited
             (queue ++ [(full_url, current_depth + 1)])
             (log (EvEnqueue full_url (current_depth + 1) normalized_url) e)
      else add_links rest normalized_url current_depth visited queue e
  end.

(** Lines 399-405: the periodic restart, evaluated after the page counter
    was incremented and before the page is scraped.  [None] stands for an
    exception ([ZeroDivisionError] for a zero interval, or a failing
    [get_driver]). *)
Definition periodic_restart (count : Z) (e : Env) : option Env :=
  if count >? 0 then
    if DRIVER_RESTART_INTERVAL cfg =? 0 then None
    else if count mod DRIVER_RESTART_INTERVAL cfg =? 0
         then restart_driver (log (EvRestart count) e)
         else Some e
  else Some e.

(** One evaluation of the [while] condition and, when it holds, of the
    loop body (lines 384-454).  The test [if not driver] of line 403 never
    fires, a driver object being truthy; the sleeps and the printing are
    left out. *)
Definition loop_iter (s : Crawl) : Status * Crawl :=
  match urls_to_visit s with
  | [] => (Finished, s)
  | (current_url, current_depth) :: rest =>
      if (PAGE_LIMIT cfg >? 0) && (pages_scraped_count s >=? PAGE_LIMIT cfg)
      then (Finished, s)
      else
        let normalized_url := PyStr.rstrip_slash current_url in
        if negb (is_valid_url (SKIP_KEYWORDS cfg) normalized_url (DOMAIN cfg)
                   (visited_urls s))
           || (current_depth >? MAX_DEPTH cfg)
        then (Running, mkCrawl rest (visited_urls s) (pages_scraped_count s) (env s))
        else
          let visited := visited_urls s ∪ {[ normalized_url ]} in
          let count := pages_scraped_count s + 1 in
          match periodic_restart count (env s) with
          | None => (Aborted, mkCrawl rest visited count (env s))
          | Some e1 =>
              let '((_, success), e2) :=
                scrape_page_with_retry normalized_url current_depth 0
                  (log (EvScrape count normalized_url current_depth) e1) in
              if (current_depth <? MAX_DEPTH cfg) && success
              then
                let '(queue, e3) :=
                  add_links (page_links W normalized_url (gets e2)) normalized_url
                    current_depth visited rest e2 in
                (Running, mkCrawl queue visited count e3)
              else (Running, mkCrawl rest visited count e2)
          end
  end.

(** The [while] loop, unrolled at most [fuel] times. *)
Fixpoint loop (fuel : nat) (s : Crawl) : Status * Crawl :=
  match fuel with
  | O => (Running, s)
  | S fuel' =>
      match loop_iter s with
      | (Running, s') => loop fuel' s'
      | stopped => stopped
      end
  end.

(** Runs the statements in order until one fails. *)
Fixpoint execute_all (stmts : list Stmt) (e : Env) : bool * Env :=
  match stmts with
  | [] => (true, e)
  | st :: rest =>
      match execute (db_fault W (db_ops e)) st (conn e) with
      | (true, c) => execute_all rest (set_conn c (S (db_ops e)) e)
      | (false, c) => (false, set_conn c (S (db_ops e)) e)
      end
  end.

(** [create_tables(conn)]: the two tables and six indexes, one commit;
    a [psycopg2.Error] is logged and rolled back inside the function. *)
Definition create_tables (e : Env) : Env :=
  match execute_all (CreatePages :: repeat CreateOther 7) e with
  | (true, e1) =>
      match commit (db_fault W (db_ops e1)) (conn e1) with
      | (true, c) => set_conn c (S (db_ops e1)) e1
      | (false, c) => set_conn (rollback c) (S (db_ops e1)) e1
      end
  | (false, e1) => set_conn (rollback (conn e1)) (db_ops e1) e1
  end.

(** Lines 363-365: [TRUNCATE TABLE pages] and its commit.  Nothing
    catches an error here: [None] hands it to the handlers of
    [crawl_website]. *)
Definition truncate_pages (e : Env) : option Env :=
  match execute (db_fault W (db_ops e)) Truncate (conn e) with
  | (true, c1) =>
      match commit (db_fault W (S (db_ops e))) c1 with
      | (true, c2) => Some (set_conn c2 (S (S (db_ops e))) e)
      | (false, _) => None
      end
  | (false, _) => None
  end.

(** The state when [crawl_website] starts, for a database whose [pages]
    table is [db0] ([None]: no such table). *)
Definition initial (db0 : option (gmap string Row)) : Crawl :=
  mkCrawl [(START_URL cfg, 0)] ∅ 0 (mkEnv (mkConn db0 db0 false) 0 0 0 []).

(** Lines 352-381: connect, truncate, create the tables, start the
    driver.  [None] when an exception ends the run before the loop. *)
Definition startup (s : Crawl) : option Crawl :=
  if connects W then
    match truncate_pages (env s) with
    | Some e1 =>
        match get_driver (create_tables e1) with
        | Some e2 =>
            Some (mkCrawl (urls_to_visit s) (visited_urls s) (pages_scraped_count s) e2)
        | None => None
        end
    | None => None
    end
  else None.

(** [crawl_website()], with the loop unrolled at most [fuel] times. *)
Definition crawl_website (fuel : nat) (db0 : option (gmap string Row))
  : Status * Crawl :=
  match startup (initial db0) with
  | Some s => loop fuel s
  | None => (Aborted, initial db0)
  end.

End Run.

End Crawler.

(* ===================================================================== *)
(** ** Reading the history *)
(* ===================================================================== *)

Import Crawler Db.

(** The URLs handed to [scrape_page_with_retry] by the loop, newest first. *)
Definition fetched_urls (tr : list Event) : list string :=
  omap (fun ev => match ev with EvScrape _ u _ => Some u | _ => None end) tr.

(** The [driver.get] calls of one retry sequence that started with
    counter [retry] and made [n] attempts, newest first. *)
Definition attempts (u : string) (retry : Z) (n : nat) : list Event :=
  map (fun k => EvGet u (retry + Z.of_nat k)) (rev (seq 0 n)).

(** Restarts and page fetches, in the order in which they happened. *)
Definition schedule (tr : list Event) : list Event :=
  List.filter (fun ev => match ev with
                         | EvRestart _ | EvScrape _ _ _ => true
                         | _ => false
                         end) (rev tr).

(** The retry counter of a stored row is within the cap. *)
Definition row_ok (cfg : Config) (r : Row) : Prop :=
  0 <= col_retry_count r <= MAX_RETRIES cfg.

Definition table_ok (cfg : Config) (t : option (gmap string Row)) : Prop :=
  forall tb k r, t = Some tb -> tb !! k = Some r -> row_ok cfg r.

(** Between two transactions: nothing pending, nothing failed. *)
Definition clean (c : Conn) : Prop :=
  working c = committed c /\ aborted c = false.

(** The events of one accepted page, newest first: the links it
    enqueued, its upsert, its navigations, the call of the retry routine
    and, before that, the restart if one was due. *)
Definition page_events (nu : string) (cd count : Z) (restarted : list Event)
    (n : nat) (d : PageData) (stored : bool) (added : list string) : list Event :=
  rev (map (fun c => EvEnqueue c (cd + 1) nu) added)
  ++ EvUpsert d stored :: attempts nu 0 n ++ EvScrape count nu cd :: restarted.


(** What holds of the crawl state before and after every pass of the
    loop. *)
Record Inv (cfg : Config) (s : Crawl) : Prop := mkInv {
  inv_clean : clean (conn (env s));
  inv_visited_norm :
    forall u, u ∈ visited_urls s -> PyStr.rstrip_slash u = u;
  inv_fetched_visited :
    forall u, u ∈ fetched_urls (trace (env s)) -> u ∈ visited_urls s;
  inv_fetched_nodup : NoDup (fetched_urls (trace (env s)));
  inv_fetch :
    forall n u d, EvScrape n u d ∈ trace (env s) ->
      0 <= d <= MAX_DEPTH cfg
      /\ ((u = PyStr.rstrip_slash (START_URL cfg) /\ d = 0)
          \/ exists c p, EvEnqueue c d p ∈ trace (env s)
                         /\ u = PyStr.rstrip_slash c);
  inv_queue :
    forall u d, (u, d) ∈ urls_to_visit s ->
      (u = START_URL cfg /\ d = 0)
      \/ exists p, EvEnqueue u d p ∈ trace (env s);
  inv_enqueue :
    forall u d p, EvEnqueue u d p ∈ trace (env s) ->
      exists n dp, EvScrape n p dp ∈ trace (env s)
                   /\ d = dp + 1 /\ dp < MAX_DEPTH cfg;
  inv_upsert :
    forall d b, EvUpsert d b ∈ trace (env s) ->
      PyStr.rstrip_slash (url d) = url d
      /\ (0 <= MAX_RETRIES cfg -> row_ok cfg (row_of d));
  inv_table :
    0 <= MAX_RETRIES cfg -> table_ok cfg (committed (conn (env s)))
}.

(* ===================================================================== *)
(** ** The specification's normalization and title, for comparison *)
(* ===================================================================== *)

(** The text before the first [#]. *)
Fixpoint remove_fragment (u : string) : string :=
  match u with
  | EmptyString => EmptyString
  | String c u' =>
      if Ascii.eqb c "#"%char then EmptyString else String c (remove_fragment u')
  end.

(** Normalization as the specification words it: trailing slash stripped
    and fragment removed. *)
Definition normalize_as_specified (u : string) : string :=
  PyStr.rstrip_slash (remove_fragment u).





(* ===================================================================== *)
(** ** Small sites used in the examples *)
(* ===================================================================== *)

Module Demo.

(** [<html><head><title> Home </title></head><body>hello</body></html>] *)
Definition home : Soup.Document :=
  [Soup.Tag "html" []
     [Soup.Tag "head" [] [Soup.Tag "title" [] [Soup.NavigableString " Home "]];
      Soup.Tag "body" [] [Soup.NavigableString "hello"]]].


(** Depth 1, a restart every 2 pages, at most 2 retries, no page limit. *)
Definition cfg : Config :=
  {| START_URL := "http://x";
     MAX_DEPTH := 1;
     SKIP_KEYWORDS := ["login"; "logout"];
     DRIVER_RESTART_INTERVAL := 2;
     MAX_RETRIES := 2;
     PAGE_LIMIT := 0 |}.

(** The same, with no link followed. *)
Definition cfg_depth0 : Config :=
  {| START_URL := "http://x";
     MAX_DEPTH := 0;
     SKIP_KEYWORDS := ["login"; "logout"];
     DRIVER_RESTART_INTERVAL := 2;
     MAX_RETRIES := 2;
     PAGE_LIMIT := 0 |}.

(** Every page renders; the seed links to three pages, to one of them
    twice (with and without the trailing slash), to a mail address and
    to another site. *)
Definition site : World :=
  {| connects := true;
     db_fault := fun _ => false;
     driver_starts := fun _ => true;
     browse := fun _ _ => Rendered home;
     page_links := fun u _ =>
       if String.eqb u "http://x"
       then ["http://x/a"; "http://x/a/"; "http://x/b"; "mailto:q@x";
             "http://y/z"; "http://x/c"]
       else [] |}.

(** Every navigation times out. *)
Definition timeouts : World :=
  {| connects := true;
     db_fault := fun _ => false;
     driver_starts := fun _ => true;
     browse := fun _ _ => TimedOut;
     page_links := fun _ _ => [] |}.

(** The site, with a database whose twelfth call fails: the first upsert
    of the run, after the two calls of the truncation and the nine of
    [create_tables]. *)
Definition flaky_db : World :=
  {| connects := true;
     db_fault := fun k => (k =? 11)%nat;
     driver_starts := fun _ => true;
     browse := browse site;
     page_links := page_links site |}.


(** The seed links to one page twice, once with a fragment. *)
Definition anchors : World :=
  {| connects := true;
     db_fault := fun _ => false;
     driver_starts := fun _ => true;
     browse := fun _ _ => Rendered home;
     page_links := fun u _ =>
       if String.eqb u "http://x" then ["http://x/a"; "http://x/a#top"] else [] |}.


(** An open connection on an empty [pages] table, before any event. *)
Definition env0 : Env := mkEnv (mkConn (Some ∅) (Some ∅) false) 0 0 0 [].

(** A frontier holding one page under both spellings. *)
Definition twice_queued : Crawl :=
  mkCrawl [("http://x/a", 1); ("http://x/a/", 1)] ∅ 0 env0.

End Demo.

(* ===================================================================== *)
(** ** Configuration parsing, and more readers of the history *)
(* ===================================================================== *)

(** [s.split(',')]. *)
Fixpoint split_commas (s : string) : list string :=
  match s with
  | EmptyString => [EmptyString]
  | String c s' =>
      if Ascii.eqb c ","%char then EmptyString :: split_commas s'
      else match split_commas s' with
           | l :: ls => String c l :: ls
           | [] => [String c EmptyString]
           end
  end.

(** Line 31:
    [os.getenv('SKIP_KEYWORDS', 'login,...,terms').split(',')], for the
    value of the environment variable ([None] when it is not set). *)
Definition SKIP_KEYWORDS_of_env (value : option string) : list string :=
  split_commas (default "login,logout,register,cart,privacy,terms" value).

(** Some character of [s] is an upper-case ASCII letter. *)
Fixpoint has_upper (s : string) : bool :=
  match s with
  | EmptyString => false
  | String c s' =>
      ((65 <=? nat_of_ascii c)%nat && (nat_of_ascii c <=? 90)%nat) || has_upper s'
  end.

(** No character of [s] is a slash. *)
Fixpoint no_slash (s : string) : bool :=
  match s with
  | EmptyString => true
  | String c s' => negb (PyStr.is_slash c) && no_slash s'
  end.

(** The normal form under which a frontier entry is compared. *)
Definition norm (entry : string * Z) : string := PyStr.rstrip_slash entry.1.

(** The depths and the numbers of the pages handed to the retry routine,
    the keys of the upserts and the page counts at the restarts, all
    newest first. *)
Definition fetched_depths (tr : list Event) : list Z :=
  omap (fun ev => match ev with EvScrape _ _ d => Some d | _ => None end) tr.



Definition restarts (tr : list Event) : list Z :=
  omap (fun ev => match ev with EvRestart c => Some c | _ => None end) tr.

(** The restart that precedes page number [count], if one is due. *)
Definition restart_due (cfg : Config) (count : Z) : list Event :=
  if count mod DRIVER_RESTART_INTERVAL cfg =? 0 then [EvRestart count] else [].

(** The three values of the [status] column. *)
Definition status_known (d : PageData) : Prop :=
  status d = "success" \/ status d = "failed" \/ status d = "error".

(** A history made of whole pages, numbered from 1: each page contributes
    its restart (when due), the call of the retry routine, the
    navigations, one upsert and the links it enqueued. *)
Inductive Pages (cfg : Config) : list Event -> Z -> Prop :=
| Pages_nil : Pages cfg [] 0
| Pages_cons tr c nu cd n d stored added :
    Pages cfg tr c ->
    DRIVER_RESTART_INTERVAL cfg <> 0 ->
    (1 <= n)%nat ->
    url d = nu -> page_depth d = cd -> status_known d ->
    Pages cfg (page_events nu cd (c + 1) (restart_due cfg (c + 1)) n d stored added
               ++ tr) (c + 1).

(** A chronological list of restarts and page fetches in which every
    restart is directly followed by the fetch of the page it was due
    for, and every page whose number is a multiple of the interval is
    directly preceded by a restart. *)
Fixpoint schedule_ok (interval : Z) (l : list Event) : Prop :=
  match l with
  | [] => True
  | EvRestart c :: rest =>
      match rest with
      | EvScrape c' _ _ :: rest' =>
          c' = c /\ c mod interval = 0 /\ schedule_ok interval rest'
      | _ => False
      end
  | EvScrape c _ _ :: rest => c mod interval <> 0 /\ schedule_ok interval rest
  | _ => False
  end.

(** The number of loop passes one frontier entry can cause when a page
    has at most [B] links and the entry is [k] levels above the depth
    limit, and the sum over the frontier. *)
Fixpoint passes (B k : nat) : nat :=
  match k with
  | O => 1
  | S k' => 1 + B * passes B k'
  end.

Definition weight (cfg : Config) (B : nat) (d : Z) : nat :=
  passes B (Z.to_nat (MAX_DEPTH cfg - d)).

Definition potential (cfg : Config) (B : nat) (queue : list (string * Z)) : nat :=
  list_sum (map (fun entry => weight cfg B entry.2) queue).

From Stdlib Require Import Sorted.

(** What else holds of the crawl state before every pass of the loop:
    the counter counts the visited URLs and respects the page limit; the
    history is made of whole pages, all of them eligible URLs; the
    frontier is ordered by depth, spans at most two depths, lies at or
    below every depth fetched so far, holds no page twice and holds only
    eligible entries besides the seed; the table holds exactly the rows
    of the upserts that succeeded; and no enqueued link has been lost. *)
Record Good (cfg : Config) (s : Crawl) : Prop := mkGood {
  good_count : pages_scraped_count s = Z.of_nat (size (visited_urls s));
  good_limit : 0 < PAGE_LIMIT cfg -> pages_scraped_count s <= PAGE_LIMIT cfg;
  good_valid :
    forall u, u ∈ fetched_urls (trace (env s)) ->
      is_valid_url (SKIP_KEYWORDS cfg) u (DOMAIN cfg) ∅ = true;
  good_pages : Pages cfg (trace (env s)) (pages_scraped_count s);
  good_sorted : StronglySorted (fun a b : string * Z => a.2 <= b.2) (urls_to_visit s);
  good_span :
    forall a b : string * Z,
      a ∈ urls_to_visit s -> b ∈ urls_to_visit s -> b.2 <= a.2 + 1;
  good_below :
    forall (d : Z) (a : string * Z),
      d ∈ fetched_depths (trace (env s)) -> a ∈ urls_to_visit s -> d <= a.2;
  good_fetch_sorted :
    StronglySorted (fun a b : Z => b <= a) (fetched_depths (trace (env s)));
  good_table : exists tb, committed (conn (env s)) = Some tb;
  good_rows :
    forall tb k r, committed (conn (env s)) = Some tb -> tb !! k = Some r ->
      exists d, EvUpsert d true ∈ trace (env s) /\ url d = k /\ r = row_of d;
  good_stored :
    forall tb d, committed (conn (env s)) = Some tb ->
      EvUpsert d true ∈ trace (env s) -> tb !! url d = Some (row_of d);
  good_nodup : NoDup (map norm (urls_to_visit s));
  good_queue_valid :
    forall a : string * Z, a ∈ urls_to_visit s ->
      a = (START_URL cfg, 0)
      \/ (is_valid_url (SKIP_KEYWORDS cfg) a.1 (DOMAIN cfg) (visited_urls s) = true
          /\ a.2 <= MAX_DEPTH cfg);
  good_enqueued :
    DOMAIN cfg <> EmptyString ->
    forall c d p, EvEnqueue c d p ∈ trace (env s) ->
      (c, d) ∈ urls_to_visit s
      \/ exists n, EvScrape n (PyStr.rstrip_slash c) d ∈ trace (env s)
}.

(** A state in which the loop was aborted: the one before it, with the
    head of the frontier taken, marked visited and counted, but not
    scraped. *)
Definition aborted_from (cfg : Config) (W : World) (s1 s : Crawl) : Prop :=
  exists cu cd rest,
    urls_to_visit s1 = (cu, cd) :: rest
    /\ (0 < PAGE_LIMIT cfg -> pages_scraped_count s1 < PAGE_LIMIT cfg)
    /\ is_valid_url (SKIP_KEYWORDS cfg) (PyStr.rstrip_slash cu) (DOMAIN cfg)
         (visited_urls s1) = true
    /\ cd <= MAX_DEPTH cfg
    /\ periodic_restart cfg W (pages_scraped_count s1 + 1) (env s1) = None
    /\ s = mkCrawl rest (visited_urls s1 ∪ {[ PyStr.rstrip_slash cu ]})
                   (pages_scraped_count s1 + 1) (env s1).

Module Demo2.


End Demo2.

(** No character of [s] is a line feed. *)
Fixpoint no_newline (s : string) : bool :=
  match s with
  | EmptyString => true
  | String c s' => negb (Ascii.eqb c "010"%char) && no_newline s'
  end.

(** A line as line 262 leaves it: not empty, and unchanged by [strip]. *)
Definition clean_line (l : string) : Prop :=
  PyStr.truthy l = true /\ PyStr.strip l = l.

(** The first character of [s], if any, is not whitespace. *)
Definition starts_clean (s : string) : bool :=
  match s with
  | EmptyString => true
  | String c _ => negb (PyStr.is_space c)
  end.
(* ===================================================================== *)
(** ** Strings *)
(* ===================================================================== *)

Example rstrip_slash_examples :
  PyStr.rstrip_slash "http://x/a/" = "http://x/a"
  /\ PyStr.rstrip_slash "http://x/a//" = "http://x/a"
  /\ PyStr.rstrip_slash "///" = EmptyString
  /\ PyStr.rstrip_slash "http://x/a#top" = "http://x/a#top".
Proof. repeat split. Qed.

Example netloc_examples :
  Url.netloc "https://www.ktmc.edu.hk/about?x#y" = "www.ktmc.edu.hk"
  /\ Url.netloc "mailto:x@y.com" = EmptyString
  /\ Url.netloc "/relative/path" = EmptyString
  /\ Url.netloc "//host/path" = "host".
Proof. repeat split. Qed.

(** The rejection set of the validator, for the domain [x] and the skip
    keyword [login]. *)
Example is_valid_url_examples :
  map (fun u => is_valid_url ["login"] u "x" ∅)
      ["mailto:x@y.com"; "tel:123"; "#section"; "http://y/page";
       "http://x/user/login"; "http://x/doc.PDF"; "http://x/page/"]
  = [false; false; false; false; false; false; true]
  /\ is_valid_url ["login"] EmptyString "x" ∅ = false
  /\ is_valid_url ["login"] "http://x/page/" "x" {[ "http://x/page" ]} = false.
Proof. vm_compute. repeat split. Qed.

Lemma rstrip_slash_idem (s : string) :
  PyStr.rstrip_slash (PyStr.rstrip_slash s) = PyStr.rstrip_slash s.
Proof.
  induction s as [|c s IH]; simpl; [reflexivity|].
  destruct (PyStr.rstrip_slash s) as [|c' r] eqn:E.
  - destruct (PyStr.is_slash c) eqn:Ec; simpl; [reflexivity|].
    rewrite Ec. reflexivity.
  - simpl in *. destruct (PyStr.rstrip_slash r) as [|c'' r'] eqn:E'.
    + destruct (PyStr.is_slash c'); [discriminate|]. rewrite IH. reflexivity.
    + rewrite IH. reflexivity.
Qed.

(* ===================================================================== *)
(** ** The upsert *)
(* ===================================================================== *)

Section InsertFacts.

Context (cfg : Config) (W : World).

Lemma insert_data_trace d e :
  exists stored, trace (insert_data W d e) = EvUpsert d stored :: trace e.
Proof.
  unfold insert_data.
  destruct (execute _ _ _) as [[] c1]; [destruct (commit _ _) as [[] c2]|];
    eexists; reflexivity.
Qed.

Lemma insert_data_counters d e :
  gets (insert_data W d e) = gets e /\ drivers (insert_data W d e) = drivers e.
Proof.
  unfold insert_data.
  destruct (execute _ _ _) as [[] c1]; [destruct (commit _ _) as [[] c2]|];
    split; reflexivity.
Qed.

Lemma insert_data_clean d e :
  clean (conn e) -> clean (conn (insert_data W d e)).
Proof.
  intros [Hw Ha]. unfold insert_data, execute, commit. rewrite Ha.
  destruct (db_fault W (db_ops e)); simpl; [split; reflexivity|].
  destruct (working (conn e)) as [tb|]; simpl; [|split; reflexivity].
  destruct (db_fault W (S (db_ops e))); simpl; split; reflexivity.
Qed.

Lemma insert_data_table_ok d e :
  row_ok cfg (row_of d) ->
  clean (conn e) ->
  table_ok cfg (committed (conn e)) ->
  table_ok cfg (committed (conn (insert_data W d e))).
Proof.
  intros Hrow [Hw Ha] Hok. unfold insert_data, execute, commit. rewrite Ha.
  destruct (db_fault W (db_ops e)); simpl; [exact Hok|].
  rewrite Hw. destruct (committed (conn e)) as [tb|] eqn:Hc; simpl; [|exact Hok].
  destruct (db_fault W (S (db_ops e))); simpl; [exact Hok|].
  intros tb' k r [= <-] Hk.
  destruct (decide (url d = k)) as [Heq|Hne].
  - rewrite Heq, lookup_insert_eq in Hk. injection Hk as <-. exact Hrow.
  - rewrite lookup_insert_ne in Hk by exact Hne. eapply Hok; eauto.
Qed.

End InsertFacts.

(* ===================================================================== *)
(** ** The retry routine *)
(* ===================================================================== *)

Lemma attempts_step (u : string) (retry : Z) (n : nat) :
  attempts u (retry + 1) n ++ [EvGet u retry] = attempts u retry (S n).
Proof.
  unfold attempts. rewrite <- cons_seq, <- seq_shift. simpl rev.
  rewrite map_app. simpl. rewrite Z.add_0_r. f_equal.
  rewrite map_rev, map_rev, map_map. f_equal.
  apply map_ext. intros k. f_equal. lia.
Qed.

(** The step of a retry: the facts about the inner call, shifted by the
    navigation that preceded it. *)
Ltac scrape_retry_case :=
  match goal with
  | IH : exists _ _ _ _, scrape_page_with_retry _ _ _ _ _ _ = _ /\ _ |- _ =>
      destruct IH as (? & ? & ? & ? & ? & ? & ? & ? & ? & ? & ? & ? & ?)
  end;
  simpl in *;
  match goal with
  | Hcall : scrape_page_with_retry _ _ _ _ _ _ = (?d, ?s, insert_data _ _ ?e1),
    Hn : (1 <= ?n)%nat,
    Htr : trace ?e1 = _,
    e : Env, retry : Z |- _ =>
      exists (S n), d, s, e1;
      replace (gets e + S n - 1)%nat with (S (gets e) + n - 1)%nat by lia;
      replace (retry + Z.of_nat (S n) - 1) with (retry + 1 + Z.of_nat n - 1) by lia;
      repeat split; try assumption; try lia;
      rewrite <- attempts_step, <- app_assoc; exact Htr
  end.

(** What one call of [scrape_page_with_retry] does: [n] navigations with
    counters [retry, retry + 1, ...], then one [insert_data] of the
    record it returns. *)
Lemma scrape_spec (cfg : Config) (W : World) (u : string) (depth retry : Z) (e : Env) :
  exists (n : nat) (d : PageData) (success : bool) (e1 : Env),
    scrape_page_with_retry cfg W u depth retry e = ((d, success), insert_data W d e1)
    /\ (1 <= n)%nat
    /\ (retry <= MAX_RETRIES cfg -> Z.of_nat n <= MAX_RETRIES cfg - retry + 1)
    /\ trace e1 = attempts u retry n ++ trace e
    /\ conn e1 = conn e /\ db_ops e1 = db_ops e
    /\ gets e1 = (gets e + n)%nat /\ drivers e1 = drivers e
    /\ ((success = true /\
         exists soup, browse W u (gets e + n - 1)%nat = Rendered soup /\
                      d = scraped_data_of soup u depth (retry + Z.of_nat n - 1))
        \/ (success = false /\ MAX_RETRIES cfg <= retry + Z.of_nat n - 1 /\
            ((browse W u (gets e + n - 1)%nat = TimedOut /\
              d = failed_data_of u depth "Failed to load" "failed")
             \/ (browse W u (gets e + n - 1)%nat = Raised /\
                 d = failed_data_of u depth "Error occurred" "error")))).
Proof.
  funelim (scrape_page_with_retry cfg W u depth retry e);
    unfold navigate in *; simpl in *.
  - exists 1%nat. do 3 eexists. split; [reflexivity|]. simpl.
    replace (gets e + 1 - 1)%nat with (gets e) by lia.
    repeat split; try lia.
    + unfold attempts. simpl. rewrite Z.add_0_r. reflexivity.
    + left. split; [reflexivity|]. exists soup. split; [assumption|].
      f_equal. lia.
  - scrape_retry_case.
  - exists 1%nat. do 3 eexists. split; [reflexivity|]. simpl.
    replace (gets e + 1 - 1)%nat with (gets e) by lia.
    repeat split; try lia.
    + unfold attempts. simpl. rewrite Z.add_0_r. reflexivity.
    + right. split; [reflexivity|]. split; [lia|]. left. eauto.
  - scrape_retry_case.
  - exists 1%nat. do 3 eexists. split; [reflexivity|]. simpl.
    replace (gets e + 1 - 1)%nat with (gets e) by lia.
    repeat split; try lia.
    + unfold attempts. simpl. rewrite Z.add_0_r. reflexivity.
    + right. split; [reflexivity|]. split; [lia|]. right. eauto.
Qed.

(* ===================================================================== *)
(** ** One pass of the crawl loop *)
(* ===================================================================== *)

Section LoopFacts.

Context (cfg : Config) (W : World).

Local Abbreviation valid u visited :=
  (is_valid_url (SKIP_KEYWORDS cfg) u (DOMAIN cfg) visited).

(** The link loop appends some of the links, each one valid and at the
    depth of the page plus one, and touches nothing but the queue and the
    history. *)
Lemma add_links_spec (links : list string) (nu : string) (cd : Z)
    (visited : gset string) (queue : list (string * Z)) (e : Env) :
  exists added : list string,
    add_links cfg links nu cd visited queue e =
      (queue ++ map (fun c => (c, cd + 1)) added,
       mkEnv (conn e) (db_ops e) (gets e) (drivers e)
             (rev (map (fun c => EvEnqueue c (cd + 1) nu) added) ++ trace e))
    /\ Forall (fun c => valid c visited = true) added.
Proof.
  revert queue e. induction links as [|l links IH]; intros queue e; simpl.
  - exists []. simpl. rewrite app_nil_r. destruct e; split; [reflexivity|constructor].
  - destruct (negb (is_already_in_queue queue l) && valid l visited) eqn:Hadd.
    + destruct (IH (queue ++ [(l, cd + 1)])
                   (log (EvEnqueue l (cd + 1) nu) e)) as (added & Heq & Hall).
      exists (l :: added). rewrite Heq. simpl. split.
      * rewrite <- !app_assoc. reflexivity.
      * constructor; [|exact Hall].
        apply andb_true_iff in Hadd. tauto.
    + apply IH.
Qed.

Lemma periodic_restart_spec (count : Z) (e e1 : Env) :
  periodic_restart cfg W count e = Some e1 ->
  conn e1 = conn e /\ db_ops e1 = db_ops e /\ gets e1 = gets e
  /\ (trace e1 = trace e
      \/ (trace e1 = EvRestart count :: trace e
          /\ count mod DRIVER_RESTART_INTERVAL cfg = 0)).
Proof.
  unfold periodic_restart, restart_driver, get_driver.
  destruct (count >? 0); [|intros [= <-]; auto].
  destruct (DRIVER_RESTART_INTERVAL cfg =? 0); [discriminate|].
  destruct (count mod DRIVER_RESTART_INTERVAL cfg =? 0) eqn:Hm;
    [|intros [= <-]; auto].
  simpl. destruct (driver_starts W (drivers e)); [|discriminate].
  intros [= <-]. simpl. apply Z.eqb_eq in Hm. auto 6.
Qed.

(** A pass that does not end the loop either drops the head of the queue
    or scrapes it. *)
Lemma loop_iter_running (s s' : Crawl) :
  loop_iter cfg W s = (Running, s') ->
  exists cu cd rest,
    urls_to_visit s = (cu, cd) :: rest /\
    ((s' = mkCrawl rest (visited_urls s) (pages_scraped_count s) (env s))
     \/
     (valid (PyStr.rstrip_slash cu) (visited_urls s) = true
      /\ cd <= MAX_DEPTH cfg
      /\ exists restarted n d stored added e1,
          let nu := PyStr.rstrip_slash cu in
          let count := pages_scraped_count s + 1 in
          visited_urls s' = visited_urls s ∪ {[ nu ]}
          /\ pages_scraped_count s' = count
          /\ urls_to_visit s' = rest ++ map (fun c => (c, cd + 1)) added
          /\ (added <> [] -> cd < MAX_DEPTH cfg)
          /\ Forall (fun c => valid c (visited_urls s') = true) added
          /\ trace (env s') =
               page_events nu cd count restarted n d stored added ++ trace (env s)
          /\ (restarted = [] \/ restarted = [EvRestart count])
          /\ conn (env s') = conn (insert_data W d e1)
          /\ conn e1 = conn (env s)
          /\ url d = nu
          /\ (0 <= MAX_RETRIES cfg -> row_ok cfg (row_of d))
          /\ (1 <= n)%nat
          /\ (0 <= MAX_RETRIES cfg -> Z.of_nat n <= MAX_RETRIES cfg + 1))).
Proof.
  unfold loop_iter.
  destruct (urls_to_visit s) as [|[cu cd] rest] eqn:Hq; [discriminate|].
  destruct ((PAGE_LIMIT cfg >? 0) && _); [discriminate|].
  intros H. exists cu, cd, rest. split; [reflexivity|].
  destruct (negb (valid (PyStr.rstrip_slash cu) (visited_urls s))
            || (cd >? MAX_DEPTH cfg)) eqn:Hskip.
  { left. congruence. }
  apply orb_false_iff in Hskip as [Hv Hd].
  apply negb_false_iff in Hv. rewrite Z.gtb_ltb in Hd. apply Z.ltb_ge in Hd.
  right. split; [exact Hv|]. split; [exact Hd|].
  destruct (periodic_restart cfg W _ (env s)) as [e1|] eqn:Hr; [|discriminate].
  apply periodic_restart_spec in Hr as (Hc1 & Ho1 & Hg1 & Ht1).
  set (e1' := log _ e1) in H.
  destruct (scrape_spec cfg W (PyStr.rstrip_slash cu) cd 0 e1')
    as (n & d & success & e2 & Hcall & Hn & Hbound & Htr & Hconn & Hops & Hgets
        & Hdrv & Hrec).
  rewrite Hcall in H.
  destruct (insert_data_trace W d e2) as (stored & Hins).
  assert (Hurl : url d = PyStr.rstrip_slash cu).
  { destruct Hrec as [(_ & soup & _ & ->)|(_ & _ & [[_ ->]|[_ ->]])];
      simpl; apply rstrip_slash_idem. }
  assert (Hrow : 0 <= MAX_RETRIES cfg -> row_ok cfg (row_of d)).
  { intros Hmax. specialize (Hbound Hmax). unfold row_ok.
    destruct Hrec as [(_ & soup & _ & ->)|(_ & _ & [[_ ->]|[_ ->]])]; simpl; lia. }
  assert (Hrs : exists restarted,
             trace e1' = EvScrape (pages_scraped_count s + 1)
                           (PyStr.rstrip_slash cu) cd :: restarted ++ trace (env s)
             /\ (restarted = [] \/ restarted = [EvRestart (pages_scraped_count s + 1)])).
  { subst e1'. simpl. destruct Ht1 as [->|[-> _]].
    - exists []. auto.
    - exists [EvRestart (pages_scraped_count s + 1)]. auto. }
  destruct Hrs as (restarted & Hrs & Hrcase).
  destruct ((cd <? MAX_DEPTH cfg) && success) eqn:Hdeep.
  - destruct (add_links_spec
                (page_links W (PyStr.rstrip_slash cu) (gets (insert_data W d e2)))
                (PyStr.rstrip_slash cu) cd
                (visited_urls s ∪ {[PyStr.rstrip_slash cu]}) rest
                (insert_data W d e2)) as (added & Hadd & Hall).
    rewrite Hadd in H. injection H as <-. simpl.
    exists restarted, n, d, stored, added, e2.
    apply andb_true_iff in Hdeep as [Hlt _]. apply Z.ltb_lt in Hlt.
    assert (Hce : conn e2 = conn (env s)) by (rewrite Hconn; exact Hc1).
    split; [reflexivity|]. split; [reflexivity|]. split; [reflexivity|].
    split; [intros _; exact Hlt|]. split; [exact Hall|].
    split.
    { unfold page_events. rewrite Hins, Htr, Hrs.
      rewrite <- !app_assoc. simpl. rewrite <- !app_assoc. reflexivity. }
    split; [exact Hrcase|]. split; [reflexivity|]. split; [exact Hce|].
    split; [exact Hurl|]. split; [exact Hrow|]. split; [exact Hn|].
    intros Hmax. specialize (Hbound Hmax). lia.
  - injection H as <-. simpl.
    exists restarted, n, d, stored, [], e2.
    assert (Hce : conn e2 = conn (env s)) by (rewrite Hconn; exact Hc1).
    split; [reflexivity|]. split; [reflexivity|].
    split; [simpl; rewrite app_nil_r; reflexivity|].
    split; [congruence|]. split; [constructor|].
    split.
    { unfold page_events. simpl. rewrite Hins, Htr, Hrs.
      rewrite <- !app_assoc. reflexivity. }
    split; [exact Hrcase|]. split; [reflexivity|]. split; [exact Hce|].
    split; [exact Hurl|]. split; [exact Hrow|]. split; [exact Hn|].
    intros Hmax. specialize (Hbound Hmax). lia.
Qed.

End LoopFacts.

(* ===================================================================== *)
(** ** The loop invariant *)
(* ===================================================================== *)

Lemma is_valid_url_not_visited (kws : list string) (u dom : string)
    (visited : gset string) :
  is_valid_url kws u dom visited = true -> PyStr.rstrip_slash u ∉ visited.
Proof.
  unfold is_valid_url.
  destruct (negb (PyStr.truthy u) || _); [discriminate|].
  destruct (negb (String.eqb _ dom)); [discriminate|].
  destruct (bool_decide (PyStr.rstrip_slash u ∈ visited)) eqn:Hv; [discriminate|].
  intros _. apply bool_decide_eq_false in Hv. exact Hv.
Qed.

Lemma elem_of_attempts (ev : Event) (u : string) (retry : Z) (n : nat) :
  ev ∈ attempts u retry n -> exists k, ev = EvGet u k.
Proof.
  unfold attempts. intros H. apply list_elem_of_fmap in H as (k & -> & _). eauto.
Qed.

Lemma elem_of_enqueues (ev : Event) (nu : string) (d : Z) (added : list string) :
  ev ∈ rev (map (fun c => EvEnqueue c d nu) added) <->
  exists c, c ∈ added /\ ev = EvEnqueue c d nu.
Proof.
  rewrite list_elem_of_In, <- in_rev, <- list_elem_of_In, list_elem_of_fmap.
  split; intros (c & H1 & H2); eauto.
Qed.

Lemma elem_of_page_events (ev : Event) nu cd count restarted n d stored added :
  restarted = [] \/ restarted = [EvRestart count] ->
  ev ∈ page_events nu cd count restarted n d stored added ->
  (exists c, c ∈ added /\ ev = EvEnqueue c (cd + 1) nu)
  \/ ev = EvUpsert d stored
  \/ (exists k, ev = EvGet nu k)
  \/ ev = EvScrape count nu cd
  \/ ev = EvRestart count.
Proof.
  intros Hr. unfold page_events.
  rewrite elem_of_app, elem_of_cons, elem_of_app, elem_of_cons.
  intros [H|[H|[H|[H|H]]]].
  - left. apply elem_of_enqueues. exact H.
  - auto.
  - right; right; left. eapply elem_of_attempts. exact H.
  - auto.
  - destruct Hr as [-> | ->].
    + inversion H.
    + apply list_elem_of_singleton in H. auto 6.
Qed.

Lemma fetched_urls_page_events nu cd count restarted n d stored added :
  restarted = [] \/ restarted = [EvRestart count] ->
  fetched_urls (page_events nu cd count restarted n d stored added) = [nu].
Proof.
  intros Hr. unfold fetched_urls, page_events.
  assert (He : omap (fun ev => match ev with EvScrape _ u _ => Some u | _ => None end)
                 (rev (map (fun c => EvEnqueue c (cd + 1) nu) added)) = []).
  { rewrite <- map_rev. induction (rev added); simpl; auto. }
  assert (Ha : omap (fun ev => match ev with EvScrape _ u _ => Some u | _ => None end)
                 (attempts nu 0 n) = []).
  { unfold attempts. induction (rev (seq 0 n)); simpl; auto. }
  rewrite omap_app, He. simpl. rewrite omap_app, Ha. simpl.
  destruct Hr as [->| ->]; reflexivity.
Qed.

Lemma elem_of_fetched_urls (u : string) (tr : list Event) :
  u ∈ fetched_urls tr <-> exists n d, EvScrape n u d ∈ tr.
Proof.
  unfold fetched_urls. rewrite list_elem_of_omap. split.
  - intros (ev & Hin & Hev). destruct ev; try discriminate.
    injection Hev as ->. eauto.
  - intros (n & d & Hin). eexists. split; [exact Hin|]. reflexivity.
Qed.

(** A pass that ends the loop leaves the surroundings alone; it may have
    taken the head of the queue and marked it visited. *)
Lemma loop_iter_stopped (cfg : Config) (W : World) (s s' : Crawl) (st : Status) :
  loop_iter cfg W s = (st, s') -> st <> Running ->
  env s' = env s
  /\ (s' = s
      \/ exists cu cd rest,
           urls_to_visit s = (cu, cd) :: rest
           /\ urls_to_visit s' = rest
           /\ visited_urls s' = visited_urls s ∪ {[ PyStr.rstrip_slash cu ]}).
Proof.
  unfold loop_iter.
  destruct (urls_to_visit s) as [|[cu cd] rest] eqn:Hq.
  { intros [= <- <-] _. auto. }
  destruct ((PAGE_LIMIT cfg >? 0) && _).
  { intros [= <- <-] _. auto. }
  destruct (negb _ || _).
  { intros [= <- <-] Hst. congruence. }
  destruct (periodic_restart cfg W _ (env s)) as [e1|].
  - destruct (scrape_page_with_retry _ _ _ _ _ _) as [[d success] e2].
    destruct ((cd <? MAX_DEPTH cfg) && success).
    + destruct (add_links _ _ _ _ _ _ _) as [queue e3].
      intros [= <- <-] Hst. congruence.
    + intros [= <- <-] Hst. congruence.
  - intros [= <- <-] _. simpl. split; [reflexivity|]. right.
    exists cu, cd, rest. auto.
Qed.

Section Invariant.

Context (cfg : Config) (W : World).

Lemma Inv_loop_iter (s s' : Crawl) (st : Status) :
  Inv cfg s -> loop_iter cfg W s = (st, s') -> Inv cfg s'.
Proof.
  intros HI Hstep.
  assert (Hdec : st = Running \/ st <> Running)
    by (destruct st; [left; reflexivity|right; discriminate|right; discriminate]).
  destruct Hdec as [->|Hst].
  2:{ destruct (loop_iter_stopped cfg W s s' st Hstep Hst) as [He [->|Hpop]];
        [exact HI|].
      destruct Hpop as (cu & cd & rest & Hq & Hq' & Hv').
      destruct HI. constructor; rewrite ?He, ?Hq', ?Hv'; try assumption.
      - intros u [Hu|Hu]%elem_of_union; [auto|].
        apply elem_of_singleton in Hu as ->. apply rstrip_slash_idem.
      - intros u Hu. apply elem_of_union. left. auto.
      - intros u d Hu. apply inv_queue0. rewrite Hq. right. exact Hu. }
  destruct (loop_iter_running cfg W s s' Hstep) as (cu & cd & rest & Hq & Hcase).
  destruct Hcase as [->|Hpage].
  { destruct HI. constructor; simpl; try assumption.
    intros u d Hu. apply inv_queue0. rewrite Hq. right. exact Hu. }
  destruct Hpage as (Hvalid & Hdepth & restarted & n & d & stored & added & e1 & Hp).
  simpl in Hp.
  destruct Hp as (Hv' & Hc' & Hq' & Hdeep & Hall & Htr & Hrs & Hconn & Hconn1
                  & Hurl & Hrow & Hn & Hbound).
  assert (Hnorm : PyStr.rstrip_slash (PyStr.rstrip_slash cu) = PyStr.rstrip_slash cu)
    by apply rstrip_slash_idem.
  assert (Hfresh : PyStr.rstrip_slash cu ∉ visited_urls s).
  { apply is_valid_url_not_visited in Hvalid. rewrite Hnorm in Hvalid. exact Hvalid. }
  assert (Hhead : (cu, cd) ∈ urls_to_visit s) by (rewrite Hq; left).
  destruct HI.
  assert (Hcd : 0 <= cd /\
                ((PyStr.rstrip_slash cu = PyStr.rstrip_slash (START_URL cfg) /\ cd = 0)
                 \/ exists c p, EvEnqueue c cd p ∈ trace (env s)
                                /\ PyStr.rstrip_slash cu = PyStr.rstrip_slash c)).
  { destruct (inv_queue0 cu cd Hhead) as [[-> ->]|[p Hp]].
    - split; [lia|]. left. auto.
    - split.
      + destruct (inv_enqueue0 _ _ _ Hp) as (m & dp & Hs & -> & _).
        apply inv_fetch0 in Hs. lia.
      + right. eauto. }
  destruct Hcd as [Hcd0 Horigin].
  constructor; rewrite ?Hv', ?Hq', ?Htr, ?Hconn.
  - apply insert_data_clean. rewrite Hconn1. exact inv_clean0.
  - intros u [Hu|Hu]%elem_of_union; [auto|].
    apply elem_of_singleton in Hu as ->. exact Hnorm.
  - unfold fetched_urls in *. rewrite omap_app.
    fold (fetched_urls (page_events (PyStr.rstrip_slash cu) cd
            (pages_scraped_count s + 1) restarted n d stored added)).
    rewrite (fetched_urls_page_events _ _ _ _ _ _ _ _ Hrs).
    intros u [Hu|Hu]%elem_of_app; apply elem_of_union.
    + right. apply list_elem_of_singleton in Hu as ->. apply elem_of_singleton. reflexivity.
    + left. auto.
  - unfold fetched_urls in *. rewrite omap_app.
    fold (fetched_urls (page_events (PyStr.rstrip_slash cu) cd
            (pages_scraped_count s + 1) restarted n d stored added)).
    rewrite (fetched_urls_page_events _ _ _ _ _ _ _ _ Hrs).
    simpl. apply NoDup_cons. split; [|exact inv_fetched_nodup0].
    intros Hin. apply Hfresh. auto.
  - intros m u dd [Hin|Hin]%elem_of_app.
    + apply (elem_of_page_events _ _ _ _ _ _ _ _ _ Hrs) in Hin.
      destruct Hin as [(c & _ & Hc)|[Hc|[(k & Hc)|[Hc|Hc]]]]; try discriminate.
      injection Hc as _ -> ->. split; [lia|].
      destruct Horigin as [?|(c & p & Hc & Heq)]; [left; assumption|].
      right. exists c, p. split; [|exact Heq]. apply elem_of_app. right. exact Hc.
    + destruct (inv_fetch0 _ _ _ Hin) as [Hd [?|(c & p & Hc & Heq)]];
        (split; [exact Hd|]); [left; assumption|].
      right. exists c, p. split; [|exact Heq]. apply elem_of_app. right. exact Hc.
  - intros u dd [Hin|Hin]%elem_of_app.
    + assert (Hin' : (u, dd) ∈ urls_to_visit s) by (rewrite Hq; right; exact Hin).
      destruct (inv_queue0 _ _ Hin') as [?|[p Hp]]; [left; assumption|].
      right. exists p. apply elem_of_app. right. exact Hp.
    + apply list_elem_of_fmap in Hin as (c & [= -> ->] & Hc).
      right. exists (PyStr.rstrip_slash cu). apply elem_of_app. left.
      unfold page_events. apply elem_of_app. left.
      apply elem_of_enqueues. eauto.
  - intros u dd p [Hin|Hin]%elem_of_app.
    + apply (elem_of_page_events _ _ _ _ _ _ _ _ _ Hrs) in Hin.
      destruct Hin as [(c & Hc & Hev)|[Hc|[(k & Hc)|[Hc|Hc]]]]; try discriminate.
      injection Hev as -> -> ->.
      exists (pages_scraped_count s + 1), cd. split; [|split; [reflexivity|]].
      * apply elem_of_app. left. unfold page_events.
        apply elem_of_app. right. right. apply elem_of_app. right. left.
      * apply Hdeep. intros ->. inversion Hc.
    + destruct (inv_enqueue0 _ _ _ Hin) as (m & dp & Hs & Hd).
      exists m, dp. split; [|exact Hd]. apply elem_of_app. right. exact Hs.
  - intros dd b [Hin|Hin]%elem_of_app; [|exact (inv_upsert0 _ _ Hin)].
    apply (elem_of_page_events _ _ _ _ _ _ _ _ _ Hrs) in Hin.
    destruct Hin as [(c & _ & Hc)|[Hc|[(k & Hc)|[Hc|Hc]]]]; try discriminate.
    injection Hc as -> ->. split; [|exact Hrow].
    rewrite Hurl. exact Hnorm.
  - intros Hmax. apply insert_data_table_ok; rewrite ?Hconn1; auto.
Qed.

Lemma Inv_loop (fuel : nat) (s : Crawl) :
  Inv cfg s -> Inv cfg (loop cfg W fuel s).2.
Proof.
  revert s. induction fuel as [|fuel IH]; intros s HI; simpl; [exact HI|].
  destruct (loop_iter cfg W s) as [st s'] eqn:Hstep.
  pose proof (Inv_loop_iter s s' st HI Hstep) as HI'.
  destruct st; simpl; auto.
Qed.

End Invariant.

(* ===================================================================== *)
(** ** Start-up *)
(* ===================================================================== *)

Section Startup.

Context (cfg : Config) (W : World).

Lemma truncate_pages_spec (e e1 : Env) :
  truncate_pages W e = Some e1 ->
  aborted (conn e) = false ->
  conn e1 = mkConn (Some ∅) (Some ∅) false /\ trace e1 = trace e
  /\ exists tb, working (conn e) = Some tb.
Proof.
  unfold truncate_pages, execute, commit. intros H Ha. rewrite Ha in H.
  destruct (db_fault W (db_ops e)); [discriminate|].
  destruct (working (conn e)) as [tb|]; simpl in H; [|discriminate].
  destruct (db_fault W (S (db_ops e))); simpl in H; [discriminate|].
  injection H as <-. simpl. eauto.
Qed.

Lemma execute_all_create (stmts : list Stmt) (e : Env) :
  Forall (fun st => st = CreatePages \/ st = CreateOther) stmts ->
  committed (conn e) = Some ∅ -> working (conn e) = Some ∅ ->
  aborted (conn e) = false ->
  committed (conn (execute_all W stmts e).2) = Some ∅
  /\ working (conn (execute_all W stmts e).2) = Some ∅
  /\ trace (execute_all W stmts e).2 = trace e
  /\ drivers (execute_all W stmts e).2 = drivers e.
Proof.
  revert e. induction stmts as [|st stmts IH]; intros e Hall Hc Hw Ha; simpl; [auto|].
  inversion Hall as [|? ? Hst Hall']; subst.
  unfold execute. rewrite Ha.
  destruct (db_fault W (db_ops e)); simpl; [auto|].
  rewrite Hw.
  destruct Hst as [-> | ->]; simpl;
    match goal with
    | |- context [execute_all W stmts ?e'] =>
        destruct (IH e') as (H1 & H2 & H3 & H4); auto
    end.
Qed.

Lemma create_tables_spec (e : Env) :
  committed (conn e) = Some ∅ -> working (conn e) = Some ∅ ->
  aborted (conn e) = false ->
  committed (conn (create_tables W e)) = Some ∅
  /\ clean (conn (create_tables W e))
  /\ trace (create_tables W e) = trace e
  /\ drivers (create_tables W e) = drivers e.
Proof.
  intros Hc Hw Ha. unfold create_tables.
  assert (Hall : Forall (fun st => st = CreatePages \/ st = CreateOther)
                   (CreatePages :: repeat CreateOther 7)).
  { simpl. repeat (apply Forall_cons; split; [auto|]). constructor. }
  destruct (execute_all_create _ e Hall Hc Hw Ha) as (Hc1 & Hw1 & Ht1 & Hd1).
  destruct (execute_all W _ e) as [[] e1]; simpl in *.
  - unfold commit. destruct (db_fault W (db_ops e1)); simpl.
    + rewrite Hc1. repeat split; auto.
    + destruct (aborted (conn e1)); simpl; rewrite ?Hc1, ?Hw1; repeat split; auto.
  - rewrite Hc1. repeat split; auto.
Qed.

Lemma startup_spec (db0 : option (gmap string Row)) (s : Crawl) :
  startup W (initial cfg db0) = Some s ->
  urls_to_visit s = [(START_URL cfg, 0)] /\ visited_urls s = ∅
  /\ pages_scraped_count s = 0 /\ trace (env s) = []
  /\ committed (conn (env s)) = Some ∅ /\ clean (conn (env s))
  /\ exists tb, db0 = Some tb.
Proof.
  unfold startup. destruct (connects W); [|discriminate].
  destruct (truncate_pages W (env (initial cfg db0))) as [e1|] eqn:Ht; [|discriminate].
  apply truncate_pages_spec in Ht as (Hc1 & Ht1 & Hex); [|reflexivity].
  destruct (create_tables_spec e1) as (Hc2 & Hcl2 & Ht2 & Hd2);
    try (rewrite Hc1; reflexivity).
  unfold get_driver. destruct (driver_starts W _); [|discriminate].
  intros [= <-]. simpl. rewrite Ht2, Ht1. simpl in Hex. auto 10.
Qed.

Lemma Inv_startup (db0 : option (gmap string Row)) (s : Crawl) :
  startup W (initial cfg db0) = Some s -> Inv cfg s.
Proof.
  intros H. apply startup_spec in H as (Hq & Hv & Hn & Ht & Hc & Hcl & _).
  constructor; rewrite ?Hq, ?Hv, ?Ht, ?Hc; simpl.
  - exact Hcl.
  - intros u Hu. apply not_elem_of_empty in Hu. contradiction.
  - intros u Hu. inversion Hu.
  - constructor.
  - intros n u d Hu. inversion Hu.
  - intros u d Hu. apply list_elem_of_singleton in Hu as [= -> ->]. auto.
  - intros u d p Hu. inversion Hu.
  - intros d b Hu. inversion Hu.
  - intros _ tb k r [= <-] Hk. rewrite lookup_empty in Hk. discriminate.
Qed.

(** The history of a run: empty when start-up fails, otherwise that of a
    state that satisfies the invariant. *)
Lemma crawl_website_cases (fuel : nat) (db0 : option (gmap string Row)) :
  (startup W (initial cfg db0) = None
   /\ crawl_website cfg W fuel db0 = (Aborted, initial cfg db0))
  \/ (exists s0, startup W (initial cfg db0) = Some s0
                 /\ crawl_website cfg W fuel db0 = loop cfg W fuel s0
                 /\ Inv cfg (crawl_website cfg W fuel db0).2).
Proof.
  unfold crawl_website.
  destruct (startup W (initial cfg db0)) as [s0|] eqn:Hs; [right|left; auto].
  exists s0. split; [reflexivity|]. split; [reflexivity|].
  apply Inv_loop. eapply Inv_startup. exact Hs.
Qed.

End Startup.

(* ===================================================================== *)
(** ** C1, C2: the retry routine *)
(* ===================================================================== *)

(** C1.  With a retry cap of 2 and a page that always times out, the
    routine navigates three times (counters 0, 1, 2) and persists and
    returns one record with empty content fields and status [failed];
    but the record has no retry count at all, and the stored row carries
    the default 0 instead of the final count 2. *)
Theorem exhausted_record_drops_retry_count :
  let r := scrape_page_with_retry Demo.cfg Demo.timeouts "http://x/a/" 1 0 Demo.env0 in
  r.1 = (failed_data_of "http://x/a/" 1 "Failed to load" "failed", false)
  /\ retry_count r.1.1 = None
  /\ trace r.2 = [EvUpsert r.1.1 true;
                  EvGet "http://x/a/" 2; EvGet "http://x/a/" 1; EvGet "http://x/a/" 0]
  /\ (exists tb row,
        committed (conn r.2) = Some tb
        /\ map_to_list tb = [("http://x/a", row)]
        /\ col_status row = "failed"
        /\ col_content row = EmptyString
        /\ col_retry_count row = 0
        /\ col_retry_count row <> MAX_RETRIES Demo.cfg).
Proof.
  vm_compute. repeat split.
  eexists _, _. repeat split; discriminate.
Qed.



(* ===================================================================== *)
(** ** C3: when the driver is restarted *)
(* ===================================================================== *)

(** C3.  With a restart interval of 2 and a crawl of four pages, the
    driver is restarted twice, each time between two pages; but the
    restarts come before page 2 and before page 4 are scraped, that is
    after one and after three pages, and none follows page 4. *)
Theorem restart_precedes_page_fetch :
  schedule (trace (env (crawl_website Demo.cfg Demo.site 10 (Some ∅)).2))
  = [EvScrape 1 "http://x" 0;
     EvRestart 2; EvScrape 2 "http://x/a" 1;
     EvScrape 3 "http://x/b" 1;
     EvRestart 4; EvScrape 4 "http://x/c" 1]
  /\ (crawl_website Demo.cfg Demo.site 10 (Some ∅)).1 = Finished.
Proof. vm_compute. split; reflexivity. Qed.

(* ===================================================================== *)
(** ** C10: a database without the [pages] table *)
(* ===================================================================== *)

(** C10.  When the [pages] table does not exist at the start, the
    truncation fails, the run ends in the handlers of [crawl_website]
    before the loop, and nothing is fetched, whatever the configuration
    and the world; [create_tables], which comes after the truncation in
    the source, would have created the table had it run first. *)
Theorem missing_pages_table_aborts (cfg : Config) (W : World) (fuel : nat) :
  truncate_pages W (env (initial cfg None)) = None
  /\ startup W (initial cfg None) = None
  /\ crawl_website cfg W fuel None = (Aborted, initial cfg None)
  /\ trace (env (crawl_website cfg W fuel None).2) = []
  /\ fetched_urls (trace (env (crawl_website cfg W fuel None).2)) = []
  /\ ((forall k, db_fault W k = false) ->
      committed (conn (create_tables W (env (initial cfg None)))) = Some ∅).
Proof.
  assert (Ht : truncate_pages W (env (initial cfg None)) = None).
  { unfold truncate_pages, execute. simpl.
    destruct (db_fault W 0); reflexivity. }
  assert (Hs : startup W (initial cfg None) = None).
  { unfold startup. rewrite Ht. destruct (connects W); reflexivity. }
  assert (Hc : crawl_website cfg W fuel None = (Aborted, initial cfg None)).
  { unfold crawl_website. rewrite Hs. reflexivity. }
  rewrite Hc. repeat split; try assumption.
  intros Hok. unfold create_tables. simpl. unfold execute. simpl.
  rewrite !Hok. simpl. unfold commit. rewrite Hok. reflexivity.
Qed.

Lemma missing_pages_table_aborts_witness :
  (forall k, db_fault Demo.site k = false)
  /\ crawl_website Demo.cfg Demo.site 10 None = (Aborted, initial Demo.cfg None)
  /\ committed (conn (create_tables Demo.site (env (initial Demo.cfg None)))) = Some ∅.
Proof.
  split; [reflexivity|]. split.
  - apply (proj1 (proj2 (proj2 (missing_pages_table_aborts Demo.cfg Demo.site 10)))).
  - apply (proj2 (proj2 (proj2 (proj2 (proj2
             (missing_pages_table_aborts Demo.cfg Demo.site 10)))))).
    reflexivity.
Defined.

(* ===================================================================== *)
(** ** C5, C6, C7: what the whole run guarantees *)
(* ===================================================================== *)

Lemma NoDup_filter_eq_length (a : string) (l : list string) :
  NoDup l -> (length (List.filter (String.eqb a) l) <= 1)%nat.
Proof.
  induction 1 as [|x l Hx Hnd IH]; simpl; [lia|].
  destruct (String.eqb a x) eqn:E; [|exact IH].
  apply String.eqb_eq in E. subst x. simpl.
  assert (Hnil : List.filter (String.eqb a) l = []).
  { clear IH Hnd. induction l as [|y l IHl]; simpl; [reflexivity|].
    destruct (String.eqb a y) eqn:E.
    - apply String.eqb_eq in E. subst y. exfalso. apply Hx. left.
    - apply IHl. intros Hin. apply Hx. right. exact Hin. }
  rewrite Hnil. simpl. lia.
Qed.

Lemma filter_all_length (a : string) (l : list string) :
  (forall x, x ∈ l -> x = a) -> List.filter (String.eqb a) l = l.
Proof.
  induction l as [|y l IH]; intros H; simpl; [reflexivity|].
  rewrite (H y) by left. rewrite String.eqb_refl. f_equal.
  apply IH. intros x Hx. apply H. right. exact Hx.
Qed.

(** The history and the frontier of a run, whether or not it got past
    start-up. *)
Lemma run_facts (cfg : Config) (W : World) (fuel : nat)
    (db0 : option (gmap string Row)) :
  let s := (crawl_website cfg W fuel db0).2 in
  (trace (env s) = [] /\ visited_urls s = ∅
   /\ urls_to_visit s = [(START_URL cfg, 0)])
  \/ Inv cfg s.
Proof.
  destruct (crawl_website_cases cfg W fuel db0) as [[_ ->]|(s0 & _ & _ & HI)];
    simpl; auto.
Qed.

(** C5.  In every run: a link is enqueued at the depth of the page it was
    found on plus one, and that page was scraped; every scraped entry is
    the seed at depth 0 or an enqueued link, hence one deeper than its
    parent; no entry deeper than [MAX_DEPTH] is scraped; and with
    [MAX_DEPTH = 0] nothing but the seed is scraped, at most once, and no
    link is enqueued. *)
Theorem depth_discipline (cfg : Config) (W : World) (fuel : nat)
    (db0 : option (gmap string Row)) :
  let s := (crawl_website cfg W fuel db0).2 in
  let tr := trace (env s) in
  (forall u d p, EvEnqueue u d p ∈ tr ->
     exists n dp, EvScrape n p dp ∈ tr /\ d = dp + 1)
  /\ (forall n u d, EvScrape n u d ∈ tr ->
        (u = PyStr.rstrip_slash (START_URL cfg) /\ d = 0)
        \/ exists c p m dp, EvEnqueue c d p ∈ tr /\ u = PyStr.rstrip_slash c
                            /\ EvScrape m p dp ∈ tr /\ d = dp + 1)
  /\ (forall u d, (u, d) ∈ urls_to_visit s ->
        (u = START_URL cfg /\ d = 0)
        \/ exists p m dp, EvEnqueue u d p ∈ tr
                          /\ EvScrape m p dp ∈ tr /\ d = dp + 1)
  /\ (forall n u d, EvScrape n u d ∈ tr -> 0 <= d <= MAX_DEPTH cfg)
  /\ (MAX_DEPTH cfg = 0 ->
      (forall n u d, EvScrape n u d ∈ tr ->
         u = PyStr.rstrip_slash (START_URL cfg) /\ d = 0)
      /\ (forall u d p, EvEnqueue u d p ∉ tr)
      /\ (length (fetched_urls tr) <= 1)%nat).
Proof.
  intros s tr. destruct (run_facts cfg W fuel db0) as [(Ht & _ & Hq)|HI];
    fold s in Ht, Hq || fold s in HI.
  { subst tr. rewrite Ht, Hq. repeat split; try (intros; exfalso; eapply not_elem_of_nil; eassumption).
    - intros u d Hu. apply list_elem_of_singleton in Hu as [= -> ->]. auto.
    - intros u d p Hu. inversion Hu.
    - simpl. lia. }
  destruct HI. fold tr in inv_fetch0, inv_queue0, inv_enqueue0, inv_fetched_nodup0.
  assert (Henq : forall u d p, EvEnqueue u d p ∈ tr ->
                   exists n dp, EvScrape n p dp ∈ tr /\ d = dp + 1).
  { intros u d p H. destruct (inv_enqueue0 _ _ _ H) as (n & dp & Hs & Hd & _). eauto. }
  assert (Hnone : MAX_DEPTH cfg = 0 -> forall u d p, EvEnqueue u d p ∉ tr).
  { intros Hz u d p H. destruct (inv_enqueue0 _ _ _ H) as (n & dp & Hs & _ & Hlt).
    apply inv_fetch0 in Hs. lia. }
  split; [exact Henq|]. split; [|split; [|split]].
  - intros n u d H. destruct (inv_fetch0 _ _ _ H) as [_ [?|(c & p & Hc & Hu)]]; [auto|].
    right. destruct (Henq _ _ _ Hc) as (m & dp & Hs & Hd). exists c, p, m, dp. auto.
  - intros u d H. destruct (inv_queue0 _ _ H) as [?|(p & Hp)]; [auto|].
    right. destruct (Henq _ _ _ Hp) as (m & dp & Hs & Hd). exists p, m, dp. auto.
  - intros n u d H. apply inv_fetch0 in H. tauto.
  - intros Hz.
    assert (Hseed : forall n u d, EvScrape n u d ∈ tr ->
                      u = PyStr.rstrip_slash (START_URL cfg) /\ d = 0).
    { intros n u d H. destruct (inv_fetch0 _ _ _ H) as [_ [?|(c & p & Hc & _)]]; [auto|].
      exfalso. exact (Hnone Hz _ _ _ Hc). }
    split; [exact Hseed|]. split; [exact (Hnone Hz)|].
    rewrite <- (filter_all_length (PyStr.rstrip_slash (START_URL cfg)) (fetched_urls tr)).
    + apply NoDup_filter_eq_length. exact inv_fetched_nodup0.
    + intros x Hx. apply elem_of_fetched_urls in Hx as (n & d & Hx).
      apply Hseed in Hx. tauto.
Qed.

Lemma depth_discipline_witness :
  MAX_DEPTH Demo.cfg_depth0 = 0
  /\ (length (fetched_urls
        (trace (env (crawl_website Demo.cfg_depth0 Demo.site 5 (Some ∅)).2))) <= 1)%nat.
Proof.
  split; [reflexivity|].
  apply (depth_discipline Demo.cfg_depth0 Demo.site 5 (Some ∅)). reflexivity.
Defined.

(** C6.  With a retry cap [MAX_RETRIES >= 0], every row the crawler
    writes has a retry count between 0 and the cap, and so has every row
    of the [pages] table at any moment of a run that got past start-up
    (the table was emptied there). *)
Theorem retry_count_within_cap (cfg : Config) (W : World) (fuel : nat)
    (db0 : option (gmap string Row)) :
  0 <= MAX_RETRIES cfg ->
  let s := (crawl_website cfg W fuel db0).2 in
  (forall d stored, EvUpsert d stored ∈ trace (env s) ->
     0 <= col_retry_count (row_of d) <= MAX_RETRIES cfg)
  /\ (is_Some (startup W (initial cfg db0)) ->
      forall tb k r, committed (conn (env s)) = Some tb -> tb !! k = Some r ->
        0 <= col_retry_count r <= MAX_RETRIES cfg).
Proof.
  intros Hmax s.
  destruct (crawl_website_cases cfg W fuel db0) as [[Hnone Hrun]|(s0 & _ & _ & HI)].
  - subst s. rewrite Hrun. simpl. split.
    + intros d stored H. inversion H.
    + rewrite Hnone. intros [x Hx]. discriminate.
  - fold s in HI. destruct HI. split.
    + intros d stored H. apply inv_upsert0 in H as [_ H]. exact (H Hmax).
    + intros _ tb k r Htb Hk. exact (inv_table0 Hmax tb k r Htb Hk).
Qed.

Lemma retry_count_within_cap_witness :
  0 <= MAX_RETRIES Demo.cfg
  /\ forall d stored,
       EvUpsert d stored
         ∈ trace (env (crawl_website Demo.cfg Demo.timeouts 5 (Some ∅)).2) ->
       0 <= col_retry_count (row_of d) <= MAX_RETRIES Demo.cfg.
Proof.
  split; [simpl; lia|].
  apply (retry_count_within_cap Demo.cfg Demo.timeouts 5 (Some ∅)). simpl; lia.
Defined.


(** The seed of [Demo.site] links to ["http://x/a"] and to
    ["http://x/a/"]: one fetch. *)
Example linked_twice_fetched_once :
  rev (fetched_urls (trace (env (crawl_website Demo.cfg Demo.site 10 (Some ∅)).2)))
  = ["http://x"; "http://x/a"; "http://x/b"; "http://x/c"].
Proof. vm_compute. reflexivity. Qed.

(** Both spellings in the frontier: one fetch. *)
Example queued_twice_fetched_once :
  fetched_urls (trace (env (loop Demo.cfg Demo.site 10 Demo.twice_queued).2))
  = ["http://x/a"].
Proof. vm_compute. reflexivity. Qed.

(* ===================================================================== *)
(** ** C8: a failing upsert *)
(* ===================================================================== *)









(** With a database that fails on the first upsert of the run, the crawl
    visits the same pages as with a sound one; only the row of the seed
    is missing. *)
Example flaky_db_run :
  schedule (trace (env (crawl_website Demo.cfg Demo.flaky_db 10 (Some ∅)).2))
  = schedule (trace (env (crawl_website Demo.cfg Demo.site 10 (Some ∅)).2))
  /\ (exists tb,
        committed (conn (env (crawl_website Demo.cfg Demo.flaky_db 10 (Some ∅)).2))
        = Some tb
        /\ tb !! "http://x" = None
        /\ col_status <$> tb !! "http://x/a" = Some "success"
        /\ size tb = 3%nat)
  /\ (crawl_website Demo.cfg Demo.flaky_db 10 (Some ∅)).1 = Finished.
Proof.
  split; [vm_compute; reflexivity|]. split; [|vm_compute; reflexivity].
  eexists. split; [vm_compute; reflexivity|].
  split; [vm_compute; reflexivity|]. split; vm_compute; reflexivity.
Qed.

(* ===================================================================== *)
(** ** C4: what normalization does *)
(* ===================================================================== *)

Lemma rstrip_slash_keeps_non_slash_end (s : string) (c : ascii) :
  PyStr.is_slash c = false ->
  PyStr.rstrip_slash (s ++ String c EmptyString)%string = (s ++ String c EmptyString)%string.
Proof.
  intros Hc. induction s as [|a s IH]; simpl.
  - rewrite Hc. reflexivity.
  - rewrite IH. destruct s; reflexivity.
Qed.

Lemma is_already_in_queue_normalized (queue : list (string * Z)) (u : string) :
  is_already_in_queue queue u
  = is_already_in_queue (map (fun entry => (PyStr.rstrip_slash entry.1, entry.2)) queue)
      (PyStr.rstrip_slash u).
Proof.
  unfold is_already_in_queue. induction queue as [|[v d] queue IH]; simpl; [reflexivity|].
  rewrite IH, !rstrip_slash_idem. reflexivity.
Qed.

(** C4, as the specification states it, fails: a fragment survives
    normalization.  With ["http://x/a"] visited, queued and stored, the
    spelling ["http://x/a#top"] is still eligible, is not found in the
    queue and gets a key of its own; a seed that links to both spellings
    has the page fetched twice. *)
Lemma fragment_is_not_removed :
  normalize_as_specified "http://x/a#top" = "http://x/a"
  /\ is_valid_url [] "http://x/a#top" "x" {[ "http://x/a" ]} = true
  /\ is_already_in_queue [("http://x/a", 1)] "http://x/a#top" = false
  /\ url (failed_data_of "http://x/a#top" 1 "Failed to load" "failed")
     <> normalize_as_specified "http://x/a#top"
  /\ rev (fetched_urls (trace (env (crawl_website Demo.cfg Demo.anchors 10 (Some ∅)).2)))
     = ["http://x"; "http://x/a"; "http://x/a#top"].
Proof.
  split; [reflexivity|]. split; [vm_compute; reflexivity|].
  split; [reflexivity|]. split; [discriminate|]. vm_compute. reflexivity.
Qed.

(** C4, amended.  The visited test, the queue test and the key of every
    record use the URL with its trailing slashes stripped, and nothing
    else is removed: a URL that does not end in a slash, with or without
    a fragment, is its own normal form.  In every run the visited set,
    the fetched URLs and the keys written hold normal forms only. *)
Theorem normalization_strips_slashes_only (cfg : Config) (W : World) (fuel : nat)
    (db0 : option (gmap string Row)) :
  (forall kws u dom (visited : gset string),
     PyStr.rstrip_slash u ∈ visited -> is_valid_url kws u dom visited = false)
  /\ (forall queue u,
        is_already_in_queue queue u
        = is_already_in_queue
            (map (fun entry => (PyStr.rstrip_slash entry.1, entry.2)) queue)
            (PyStr.rstrip_slash u))
  /\ (forall soup u depth retry,
        url (scraped_data_of soup u depth retry) = PyStr.rstrip_slash u)
  /\ (forall u depth ttl st,
        url (failed_data_of u depth ttl st) = PyStr.rstrip_slash u)
  /\ (forall u, PyStr.rstrip_slash (PyStr.rstrip_slash u) = PyStr.rstrip_slash u)
  /\ (forall u c, PyStr.is_slash c = false ->
        PyStr.rstrip_slash (u ++ String c EmptyString)%string
        = (u ++ String c EmptyString)%string)
  /\ (let s := (crawl_website cfg W fuel db0).2 in
      (forall u, u ∈ visited_urls s -> PyStr.rstrip_slash u = u)
      /\ (forall n u d, EvScrape n u d ∈ trace (env s) -> PyStr.rstrip_slash u = u)
      /\ (forall d stored, EvUpsert d stored ∈ trace (env s) ->
            PyStr.rstrip_slash (url d) = url d)).
Proof.
  split.
  { intros kws u dom visited Hin.
    destruct (is_valid_url kws u dom visited) eqn:Hv; [|reflexivity].
    apply is_valid_url_not_visited in Hv. contradiction. }
  split; [exact is_already_in_queue_normalized|].
  split; [reflexivity|]. split; [reflexivity|].
  split; [exact rstrip_slash_idem|].
  split; [exact rstrip_slash_keeps_non_slash_end|].
  intros s. destruct (run_facts cfg W fuel db0) as [(Ht & Hv & _)|HI];
    fold s in Ht, Hv || fold s in HI.
  - rewrite Ht, Hv. split; [|split].
    + intros u Hu. apply not_elem_of_empty in Hu. contradiction.
    + intros n u d Hu. inversion Hu.
    + intros d stored Hu. inversion Hu.
  - destruct HI. split; [exact inv_visited_norm0|]. split.
    + intros n u d H. apply inv_visited_norm0, inv_fetched_visited0.
      apply elem_of_fetched_urls. eauto.
    + intros d stored H. apply inv_upsert0 in H. tauto.
Qed.

Lemma normalization_strips_slashes_only_witness :
  PyStr.rstrip_slash "http://x/a//" ∈ ({[ "http://x/a" ]} : gset string)
  /\ is_valid_url [] "http://x/a//" "x" {[ "http://x/a" ]} = false.
Proof.
  split; [vm_compute; reflexivity|].
  apply (proj1 (normalization_strips_slashes_only Demo.cfg Demo.site 0 None)).
  apply elem_of_singleton. reflexivity.
Defined.

(* ===================================================================== *)
(** ** C9: the title *)
(* ===================================================================== *)






(* ===================================================================== *)
(** ** More on the retry routine *)
(* ===================================================================== *)





(** X3.  Whatever the browser does, the record a call returns is keyed by
    the URL without trailing slashes and carries the depth passed in; the
    returned flag is true exactly when the status is ['success']; a
    successful record counts in [retry_count] the failed navigations that
    preceded it; a failure record has status ['failed'] or ['error'],
    empty content, heading and meta fields, and no retry count. *)
Theorem scrape_record_shape
    (cfg : Config) (W : World) (u : string) (depth retry : Z) (e : Env) :
  let r := scrape_page_with_retry cfg W u depth retry e in
  url r.1.1 = PyStr.rstrip_slash u
  /\ page_depth r.1.1 = depth
  /\ (r.1.2 = true <-> status r.1.1 = "success")
  /\ (r.1.2 = true ->
      exists n : nat, retry_count r.1.1 = Some (retry + Z.of_nat n)
                      /\ gets r.2 = (gets e + n + 1)%nat)
  /\ (r.1.2 = false ->
      (status r.1.1 = "failed" \/ status r.1.1 = "error")
      /\ content r.1.1 = EmptyString
      /\ h1_tags r.1.1 = EmptyString /\ h2_tags r.1.1 = EmptyString
      /\ h3_tags r.1.1 = EmptyString
      /\ meta_description r.1.1 = EmptyString
      /\ meta_keywords r.1.1 = EmptyString
      /\ retry_count r.1.1 = None).
Proof.
  intros r. subst r.
  destruct (scrape_spec cfg W u depth retry e)
    as (n & d & success & e1 & Hcall & Hn & _ & _ & _ & _ & Hgets & _ & Hrec).
  rewrite Hcall. simpl.
  rewrite (proj1 (insert_data_counters _ _ _)), Hgets.
  destruct Hrec as [(-> & soup & _ & ->)|(-> & _ & [[_ ->]|[_ ->]])]; simpl.
  - repeat split; try reflexivity; try discriminate.
    intros _. exists (n - 1)%nat. split; [f_equal; lia|lia].
  - repeat split; try reflexivity; try discriminate; auto.
  - repeat split; try reflexivity; try discriminate; auto.
Qed.

(* ===================================================================== *)
(** ** More on the database calls *)
(* ===================================================================== *)

Lemma insert_data_cases (W : World) (d : PageData) (e : Env) :
  clean (conn e) ->
  (trace (insert_data W d e) = EvUpsert d true :: trace e
   /\ exists tb, committed (conn e) = Some tb
                 /\ committed (conn (insert_data W d e))
                    = Some (<[url d := row_of d]> tb))
  \/ (trace (insert_data W d e) = EvUpsert d false :: trace e
      /\ conn (insert_data W d e) = conn e).
Proof.
  intros [Hw Ha]. unfold insert_data, execute, commit. rewrite Ha.
  destruct (conn e) as [c w a] eqn:Hc. simpl in *. subst w a.
  destruct (db_fault W (db_ops e)); simpl; [right; auto|].
  destruct c as [tb|]; simpl; [|right; auto].
  destruct (db_fault W (S (db_ops e))); simpl; [right; auto|].
  left. split; [reflexivity|]. exists tb. auto.
Qed.

(** X4.  An upsert is all or nothing.  On a connection between two
    transactions, [insert_data] either stores exactly the row of its
    record under the record's URL, leaving every other row as it was, or
    stores nothing and leaves the connection exactly as it found it; in
    both cases the connection is again between two transactions. *)
Theorem insert_data_all_or_nothing (W : World) (d : PageData) (e : Env) :
  clean (conn e) ->
  clean (conn (insert_data W d e))
  /\ ((trace (insert_data W d e) = EvUpsert d true :: trace e
       /\ exists tb, committed (conn e) = Some tb
                     /\ committed (conn (insert_data W d e))
                        = Some (<[url d := row_of d]> tb))
      \/ (trace (insert_data W d e) = EvUpsert d false :: trace e
          /\ conn (insert_data W d e) = conn e)).
Proof.
  intros Hcl. split; [apply insert_data_clean; exact Hcl|].
  apply insert_data_cases. exact Hcl.
Qed.

Lemma insert_data_all_or_nothing_witness :
  clean (conn Demo.env0)
  /\ clean (conn (insert_data Demo.site
                    (failed_data_of "http://x/a" 1 "Failed to load" "failed")
                    Demo.env0)).
Proof.
  split; [split; reflexivity|].
  apply (insert_data_all_or_nothing Demo.site
           (failed_data_of "http://x/a" 1 "Failed to load" "failed") Demo.env0).
  split; reflexivity.
Defined.

(** X5.  The upsert is keyed by URL with last write wins.  After two
    upserts in a row that both succeed, the table holds the row of the
    second record under its URL; when both records have the same URL the
    first leaves no other trace, so the table has one row for that URL
    and no more rows than one upsert alone would give; rows under other
    URLs are those of the table before, or that of the first record. *)
Theorem upsert_last_write_wins (W : World) (d1 d2 : PageData) (e : Env)
    (tb : gmap string Row) :
  clean (conn e) -> committed (conn e) = Some tb ->
  (forall k, (k < 4)%nat -> db_fault W (db_ops e + k) = false) ->
  exists tb',
    committed (conn (insert_data W d2 (insert_data W d1 e))) = Some tb'
    /\ tb' !! url d2 = Some (row_of d2)
    /\ (url d1 = url d2 -> tb' = <[url d2 := row_of d2]> tb)
    /\ (forall k, k <> url d1 -> k <> url d2 -> tb' !! k = tb !! k)
    /\ (url d1 <> url d2 -> tb' !! url d1 = Some (row_of d1)).
Proof.
  intros [Hw Ha] Hc Hok.
  assert (H0 := Hok 0%nat ltac:(lia)). assert (H1 := Hok 1%nat ltac:(lia)).
  assert (H2 := Hok 2%nat ltac:(lia)). assert (H3 := Hok 3%nat ltac:(lia)).
  rewrite Nat.add_0_r in H0.
  replace (db_ops e + 1)%nat with (S (db_ops e)) in H1 by lia.
  replace (db_ops e + 2)%nat with (S (S (db_ops e))) in H2 by lia.
  replace (db_ops e + 3)%nat with (S (S (S (db_ops e)))) in H3 by lia.
  exists (<[url d2 := row_of d2]> (<[url d1 := row_of d1]> tb)).
  split.
  { unfold insert_data at 2. unfold execute, commit.
    rewrite Ha, H0, Hw, Hc. simpl. rewrite H1. simpl.
    unfold insert_data, execute, commit. simpl. rewrite H2. simpl. rewrite H3.
    reflexivity. }
  split; [apply lookup_insert_eq|]. split; [|split].
  - intros ->. apply insert_insert_eq.
  - intros k Hk1 Hk2. rewrite !lookup_insert_ne by auto. reflexivity.
  - intros Hne. rewrite lookup_insert_ne by auto. apply lookup_insert_eq.
Qed.

Lemma upsert_last_write_wins_witness :
  clean (conn Demo.env0) /\ committed (conn Demo.env0) = Some ∅
  /\ (forall k, (k < 4)%nat -> db_fault Demo.site (db_ops Demo.env0 + k) = false)
  /\ exists tb',
       committed (conn (insert_data Demo.site
                          (scraped_data_of Demo.home "http://x/a" 1 0)
                          (insert_data Demo.site
                             (failed_data_of "http://x/a/" 1 "Failed to load" "failed")
                             Demo.env0))) = Some tb'
       /\ tb' !! "http://x/a" = Some (row_of (scraped_data_of Demo.home "http://x/a" 1 0))
       /\ size tb' = 1%nat.
Proof.
  split; [split; reflexivity|]. split; [reflexivity|]. split; [reflexivity|].
  destruct (upsert_last_write_wins Demo.site
              (failed_data_of "http://x/a/" 1 "Failed to load" "failed")
              (scraped_data_of Demo.home "http://x/a" 1 0) Demo.env0 ∅)
    as (tb' & Hc & Hl & Heq & _); [split; reflexivity|reflexivity|reflexivity|].
  exists tb'. split; [exact Hc|]. split; [exact Hl|].
  rewrite (Heq eq_refl). vm_compute. reflexivity.
Defined.

Lemma classic_faults (W : World) (start n : nat) :
  (forall k, (k < n)%nat -> db_fault W (start + k) = false)
  \/ (exists k, (k < n)%nat /\ db_fault W (start + k) = true).
Proof.
  induction n as [|n [IH|(k & Hk & Hf)]].
  - left. intros k Hk. lia.
  - destruct (db_fault W (start + n)) eqn:F.
    + right. exists n. split; [lia|exact F].
    + left. intros k Hk. destruct (decide (k = n)) as [->|Hne]; [exact F|].
      apply IH. lia.
  - right. exists k. split; [lia|exact Hf].
Qed.

Lemma execute_all_others (W : World) (n : nat) (e : Env) :
  aborted (conn e) = false ->
  committed (conn (execute_all W (repeat CreateOther n) e).2) = committed (conn e)
  /\ trace (execute_all W (repeat CreateOther n) e).2 = trace e
  /\ ((forall k, (k < n)%nat -> db_fault W (db_ops e + k) = false) ->
      (execute_all W (repeat CreateOther n) e).1 = true
      /\ working (conn (execute_all W (repeat CreateOther n) e).2) = working (conn e)
      /\ aborted (conn (execute_all W (repeat CreateOther n) e).2) = false
      /\ db_ops (execute_all W (repeat CreateOther n) e).2 = (db_ops e + n)%nat)
  /\ ((exists k, (k < n)%nat /\ db_fault W (db_ops e + k) = true) ->
      (execute_all W (repeat CreateOther n) e).1 = false).
Proof.
  revert e. induction n as [|n IH]; intros e Ha; simpl.
  - split; [reflexivity|]. split; [reflexivity|]. split.
    + intros _. auto.
    + intros (k & Hk & _). lia.
  - unfold execute. rewrite Ha.
    destruct (db_fault W (db_ops e)) eqn:F0; simpl.
    + split; [reflexivity|]. split; [reflexivity|]. split; [|auto].
      intros Hok. specialize (Hok 0%nat ltac:(lia)).
      rewrite Nat.add_0_r in Hok. congruence.
    + set (e' := set_conn _ _ e).
      destruct (IH e' eq_refl) as (Hc & Ht & Hgood & Hbad).
      split; [exact Hc|]. split; [exact Ht|]. split.
      * intros Hok. destruct Hgood as (H1 & H2 & H3 & H4).
        { intros k Hk. subst e'. simpl.
          replace (S (db_ops e + k)) with (db_ops e + S k)%nat by lia.
          apply Hok. lia. }
        split; [exact H1|]. split; [exact H2|]. split; [exact H3|].
        rewrite H4. subst e'. simpl. lia.
      * intros (k & Hk & Hf). apply Hbad. destruct k as [|k].
        { rewrite Nat.add_0_r in Hf. congruence. }
        exists k. split; [lia|]. subst e'. simpl.
        replace (S (db_ops e + k)) with (db_ops e + S k)%nat by lia. exact Hf.
Qed.

(** X6.  [create_tables] never loses a row and never raises.  On a
    connection between two transactions it leaves the [pages] table as it
    was when the table exists; it creates the table, empty, when it does
    not exist and none of its nine database calls (eight statements and
    the commit) fails; and when any of the nine fails nothing at all is
    created, the [pages] table included.  The connection is between two
    transactions afterwards. *)
Theorem create_tables_keeps_rows (W : World) (e : Env) :
  clean (conn e) ->
  clean (conn (create_tables W e))
  /\ trace (create_tables W e) = trace e
  /\ (forall tb, committed (conn e) = Some tb ->
        committed (conn (create_tables W e)) = Some tb)
  /\ ((forall k, (k < 9)%nat -> db_fault W (db_ops e + k) = false) ->
      committed (conn (create_tables W e)) = Some (default ∅ (committed (conn e))))
  /\ ((exists k, (k < 9)%nat /\ db_fault W (db_ops e + k) = true) ->
      committed (conn (create_tables W e)) = committed (conn e)).
Proof.
  intros [Hw Ha]. unfold create_tables.
  remember (repeat CreateOther 7) as others eqn:Ho.
  simpl execute_all. unfold execute. rewrite Ha, Hw.
  destruct (db_fault W (db_ops e)) eqn:F0.
  { simpl. unfold rollback, clean. simpl. repeat split; auto.
    intros Hok. specialize (Hok 0%nat ltac:(lia)).
    rewrite Nat.add_0_r in Hok. congruence. }
  assert (Hstep : exists w', apply_stmt CreatePages (committed (conn e)) = Some w'
                             /\ w' = Some (default ∅ (committed (conn e)))).
  { destruct (committed (conn e)); eexists; split; reflexivity. }
  destruct Hstep as (w' & Hstep & Hw'). rewrite Hstep.
  set (e1 := set_conn (mkConn (committed (conn e)) w' false) (S (db_ops e)) e).
  pose proof (execute_all_others W 7 e1 eq_refl) as Hothers.
  rewrite <- Ho in Hothers. destruct Hothers as (Hc & Ht & Hgood & Hbad).
  destruct (classic_faults W (db_ops e1) 7) as [Hok|Hko].
  - destruct (Hgood Hok) as (H1 & H2 & H3 & H4).
    destruct (execute_all W others e1) as [ok e2]. simpl in *.
    subst ok. unfold commit. rewrite H4, H3, H2.
    destruct (db_fault W (S (db_ops e + 7))) eqn:F8; simpl.
    + unfold rollback, clean. simpl. rewrite Hc. repeat split; auto.
      intros Hall. specialize (Hall 8%nat ltac:(lia)).
      replace (db_ops e + 8)%nat with (S (db_ops e + 7))%nat in Hall by lia.
      congruence.
    + unfold clean. simpl. split; [auto|]. split; [exact Ht|]. split; [|split].
      * intros tb Htb. rewrite Hw'. rewrite Htb. reflexivity.
      * intros _. exact Hw'.
      * intros (k & Hk & Hf). exfalso.
        destruct k as [|k]; [rewrite Nat.add_0_r in Hf; congruence|].
        destruct (decide (k = 7%nat)) as [->|Hne].
        { replace (db_ops e + 8)%nat with (S (db_ops e + 7))%nat in Hf by lia.
          congruence. }
        specialize (Hok k ltac:(lia)).
        replace (S (db_ops e + k))%nat with (db_ops e + S k)%nat in Hok by lia.
        congruence.
  - specialize (Hbad Hko).
    destruct (execute_all W others e1) as [ok e2]. simpl in *.
    subst ok. unfold rollback, clean. simpl. rewrite Hc. repeat split; auto.
    intros Hall. exfalso. destruct Hko as (k & Hk & Hf).
    specialize (Hall (S k) ltac:(lia)).
    replace (db_ops e + S k)%nat with (S (db_ops e + k))%nat in Hall by lia.
    congruence.
Qed.

Lemma create_tables_keeps_rows_witness :
  clean (conn (mkEnv (mkConn None None false) 0 0 0 []))
  /\ (forall k, (k < 9)%nat -> db_fault Demo.site (0 + k) = false)
  /\ committed (conn (create_tables Demo.site (mkEnv (mkConn None None false) 0 0 0 [])))
     = Some ∅.
Proof.
  split; [split; reflexivity|]. split; [reflexivity|].
  apply (proj1 (proj2 (proj2 (proj2
           (create_tables_keeps_rows Demo.site
              (mkEnv (mkConn None None false) 0 0 0 []) (conj eq_refl eq_refl)))))).
  reflexivity.
Defined.

(** X7.  The run gets past start-up exactly when the connection is
    obtained, the [pages] table exists, the truncation and its commit do
    not fail, and the first driver starts; a failure inside
    [create_tables] does not stop it.  Past start-up the table is empty
    whatever it held, the frontier holds the seed at depth 0, nothing is
    visited and no page is counted. *)
Theorem startup_succeeds_iff (cfg : Config) (W : World)
    (db0 : option (gmap string Row)) :
  (is_Some (startup W (initial cfg db0)) <->
   connects W = true /\ is_Some db0
   /\ db_fault W 0 = false /\ db_fault W 1 = false
   /\ driver_starts W 0 = true)
  /\ (forall s, startup W (initial cfg db0) = Some s ->
        committed (conn (env s)) = Some ∅
        /\ urls_to_visit s = [(START_URL cfg, 0)]
        /\ visited_urls s = ∅ /\ pages_scraped_count s = 0
        /\ trace (env s) = []).
Proof.
  split.
  - unfold startup, truncate_pages, execute, commit. simpl.
    destruct (connects W); [|split; [intros [? ?]; discriminate|intros [? _]; discriminate]].
    destruct (db_fault W 0);
      [split; [intros [? ?]; discriminate|intros (_ & _ & ? & _); discriminate]|].
    destruct db0 as [tb|]; simpl;
      [|split; [intros [? ?]; discriminate|intros (_ & [? ?] & _); discriminate]].
    destruct (db_fault W 1); simpl;
      [split; [intros [? ?]; discriminate|intros (_ & _ & _ & ? & _); discriminate]|].
    set (e1 := set_conn _ 2%nat _).
    destruct (create_tables_spec W e1 eq_refl eq_refl eq_refl) as (_ & _ & _ & Hd).
    unfold get_driver. rewrite Hd. simpl.
    destruct (driver_starts W 0).
    + split; [intros _; repeat split; eauto|intros _; eauto].
    + split; [intros [? ?]; discriminate|intros (_ & _ & _ & _ & ?); discriminate].
  - intros s Hs. apply (startup_spec cfg) in Hs as (Hq & Hv & Hn & Ht & Hc & _ & _).
    auto.
Qed.

Lemma startup_succeeds_iff_witness :
  (connects Demo.flaky_db = true /\ is_Some (Some (∅ : gmap string Row))
   /\ db_fault Demo.flaky_db 0 = false /\ db_fault Demo.flaky_db 1 = false
   /\ driver_starts Demo.flaky_db 0 = true)
  /\ is_Some (startup Demo.flaky_db (initial Demo.cfg (Some ∅))).
Proof.
  assert (H : connects Demo.flaky_db = true /\ is_Some (Some (∅ : gmap string Row))
              /\ db_fault Demo.flaky_db 0 = false /\ db_fault Demo.flaky_db 1 = false
              /\ driver_starts Demo.flaky_db 0 = true).
  { repeat split; try reflexivity. eexists. reflexivity. }
  split; [exact H|].
  apply (proj2 (proj1 (startup_succeeds_iff Demo.cfg Demo.flaky_db (Some ∅)))). exact H.
Defined.

(* ===================================================================== *)
(** ** More on the validator *)
(* ===================================================================== *)

Lemma prefix_rstrip_slash (s p : string) :
  no_slash p = true -> p <> EmptyString ->
  String.prefix p (PyStr.rstrip_slash s) = String.prefix p s.
Proof.
  revert p. induction s as [|c s IH]; intros p Hp Hne; [reflexivity|].
  destruct p as [|a p]; [contradiction|].
  simpl in Hp. apply andb_true_iff in Hp as [Ha Hp].
  apply negb_true_iff in Ha.
  assert (Hrest : String.prefix p (PyStr.rstrip_slash s) = String.prefix p s).
  { destruct p as [|b p]; [destruct (PyStr.rstrip_slash s); destruct s; reflexivity|].
    apply IH; [exact Hp|discriminate]. }
  simpl. destruct (PyStr.rstrip_slash s) as [|c' r] eqn:Er.
  - destruct (PyStr.is_slash c) eqn:Ec.
    + simpl. destruct (Ascii.ascii_dec a c) as [->|_]; [congruence|reflexivity].
    + simpl. destruct (Ascii.ascii_dec a c); [exact Hrest|reflexivity].
  - simpl. destruct (Ascii.ascii_dec a c); [exact Hrest|reflexivity].
Qed.

Lemma rstrip_slash_nonempty (u : string) :
  PyStr.rstrip_slash u <> EmptyString -> u <> EmptyString.
Proof. intros H ->. apply H. reflexivity. Qed.

Lemma is_valid_url_rstrip (kws : list string) (u dom : string) (visited : gset string) :
  PyStr.rstrip_slash u <> EmptyString ->
  is_valid_url kws (PyStr.rstrip_slash u) dom visited = is_valid_url kws u dom visited.
Proof.
  intros Hne. pose proof (rstrip_slash_nonempty u Hne) as Hu.
  unfold is_valid_url. rewrite rstrip_slash_idem.
  assert (Ht : PyStr.truthy (PyStr.rstrip_slash u) = PyStr.truthy u).
  { destruct (PyStr.rstrip_slash u); [contradiction|]. destruct u; [contradiction|].
    reflexivity. }
  assert (Hp : existsb (PyStr.startswith (PyStr.rstrip_slash u)) reject_prefixes
               = existsb (PyStr.startswith u) reject_prefixes).
  { unfold reject_prefixes, PyStr.startswith. simpl.
    rewrite !prefix_rstrip_slash by (reflexivity || discriminate). reflexivity. }
  rewrite Ht, Hp. reflexivity.
Qed.

(** X8.  The validator gives the same answer for a URL and for that URL
    with its trailing slashes stripped, provided something is left of it:
    the test made when a link is enqueued (on the resolved link) and the
    test made when it is dequeued (on the stripped link) agree. *)
Theorem is_valid_url_ignores_trailing_slashes
    (kws : list string) (u dom : string) (visited : gset string) :
  PyStr.rstrip_slash u <> EmptyString ->
  is_valid_url kws (PyStr.rstrip_slash u) dom visited = is_valid_url kws u dom visited.
Proof. apply is_valid_url_rstrip. Qed.

Lemma is_valid_url_ignores_trailing_slashes_witness :
  PyStr.rstrip_slash "http://x/page//" <> EmptyString
  /\ is_valid_url ["login"] (PyStr.rstrip_slash "http://x/page//") "x" ∅
     = is_valid_url ["login"] "http://x/page//" "x" ∅.
Proof.
  split; [discriminate|].
  apply (is_valid_url_ignores_trailing_slashes ["login"] "http://x/page//" "x" ∅).
  discriminate.
Defined.

Lemma lower_has_no_upper (s : string) : has_upper (PyStr.lower s) = false.
Proof.
  induction s as [|c s IH]; [reflexivity|]. simpl. rewrite IH, orb_false_r.
  unfold PyStr.lower_char.
  destruct ((65 <=? nat_of_ascii c)%nat && (nat_of_ascii c <=? 90)%nat) eqn:E;
    [|exact E].
  apply andb_true_iff in E as [E1 E2].
  apply Nat.leb_le in E1. apply Nat.leb_le in E2.
  rewrite nat_ascii_embedding by lia.
  apply andb_false_iff. right. apply Nat.leb_gt. lia.
Qed.

Lemma prefix_has_upper (k s : string) :
  String.prefix k s = true -> has_upper k = true -> has_upper s = true.
Proof.
  revert s. induction k as [|a k IH]; intros s Hp Hk; [discriminate|].
  destruct s as [|c s]; [discriminate|]. simpl in Hp.
  destruct (Ascii.ascii_dec a c) as [->|_]; [|discriminate].
  simpl in *. apply orb_true_iff in Hk as [Hk|Hk]; apply orb_true_iff; auto.
Qed.

Lemma contains_has_upper (k s : string) :
  PyStr.contains k s = true -> has_upper k = true -> has_upper s = true.
Proof.
  intros Hc Hk. induction s as [|c s IH]; cbn [PyStr.contains] in Hc.
  - apply orb_true_iff in Hc as [Hc|Hc]; [|discriminate].
    eapply prefix_has_upper; eauto.
  - apply orb_true_iff in Hc as [Hc|Hc].
    + eapply prefix_has_upper; eauto.
    + simpl. apply orb_true_iff. right. auto.
Qed.

(** X9.  Skip keywords are matched as written against the lower-cased
    URL: a keyword that contains an upper-case ASCII letter never matches
    and rejects nothing, so that the validator answers as if the keyword
    were not in the list. *)
Theorem uppercase_keyword_never_matches
    (kw : string) (kws : list string) (u dom : string) (visited : gset string) :
  has_upper kw = true ->
  is_valid_url (kw :: kws) u dom visited = is_valid_url kws u dom visited.
Proof.
  intros Hk. unfold is_valid_url. simpl.
  assert (Hc : PyStr.contains kw (PyStr.lower (PyStr.rstrip_slash u)) = false).
  { destruct (PyStr.contains kw _) eqn:E; [|reflexivity].
    pose proof (contains_has_upper _ _ E Hk) as Hup.
    rewrite lower_has_no_upper in Hup. discriminate. }
  rewrite Hc. reflexivity.
Qed.

Lemma uppercase_keyword_never_matches_witness :
  has_upper "Login" = true
  /\ is_valid_url ["Login"] "http://x/Login" "x" ∅ = is_valid_url [] "http://x/Login" "x" ∅.
Proof.
  split; [reflexivity|].
  apply (uppercase_keyword_never_matches "Login" [] "http://x/Login" "x" ∅).
  reflexivity.
Defined.

Lemma contains_empty (s : string) : PyStr.contains EmptyString s = true.
Proof. destruct s; reflexivity. Qed.

Lemma is_valid_url_empty_keyword (kws : list string) (u dom : string)
    (visited : gset string) :
  In EmptyString kws -> is_valid_url kws u dom visited = false.
Proof.
  intros Hin. unfold is_valid_url.
  destruct (negb (PyStr.truthy u) || _); [reflexivity|].
  destruct (negb (String.eqb _ dom)); [reflexivity|].
  destruct (bool_decide _); [reflexivity|].
  destruct (existsb (PyStr.endswith _) skip_extensions); [reflexivity|].
  assert (He : existsb (fun keyword =>
                 PyStr.contains keyword (PyStr.lower (PyStr.rstrip_slash u))) kws = true).
  { apply existsb_exists. exists EmptyString. split; [exact Hin|apply contains_empty]. }
  rewrite He. reflexivity.
Qed.

(** Marking more URLs visited never makes a URL eligible. *)
Lemma is_valid_url_antimono (kws : list string) (u dom : string)
    (visited visited' : gset string) :
  visited ⊆ visited' ->
  is_valid_url kws u dom visited' = true -> is_valid_url kws u dom visited = true.
Proof.
  intros Hsub. unfold is_valid_url.
  destruct (negb (PyStr.truthy u) || _); [discriminate|].
  destruct (negb (String.eqb _ dom)); [discriminate|].
  destruct (bool_decide (PyStr.rstrip_slash u ∈ visited')) eqn:Hv'; [discriminate|].
  apply bool_decide_eq_false in Hv'.
  destruct (bool_decide (PyStr.rstrip_slash u ∈ visited)) eqn:Hv; [|auto].
  apply bool_decide_eq_true in Hv. exfalso. apply Hv'. apply Hsub. exact Hv.
Qed.

(** Marking one more URL visited changes the answer only for the URLs of
    that normal form. *)
Lemma is_valid_url_other_visited (kws : list string) (u dom x : string)
    (visited : gset string) :
  PyStr.rstrip_slash u <> x ->
  is_valid_url kws u dom (visited ∪ {[ x ]}) = is_valid_url kws u dom visited.
Proof.
  intros Hne. unfold is_valid_url.
  assert (Hb : bool_decide (PyStr.rstrip_slash u ∈ visited ∪ {[x]})
               = bool_decide (PyStr.rstrip_slash u ∈ visited)).
  { apply bool_decide_ext. rewrite elem_of_union, elem_of_singleton. tauto. }
  rewrite Hb. reflexivity.
Qed.

(** What an accepted URL looks like. *)
Lemma is_valid_url_accepts (kws : list string) (u dom : string) (visited : gset string) :
  is_valid_url kws u dom visited = true ->
  u <> EmptyString
  /\ (forall p, In p reject_prefixes -> PyStr.startswith u p = false)
  /\ Url.netloc (PyStr.rstrip_slash u) = dom
  /\ (PyStr.rstrip_slash u ∉ visited)
  /\ (forall ext, In ext skip_extensions ->
        PyStr.endswith (PyStr.lower (PyStr.rstrip_slash u)) ext = false)
  /\ (forall kw, In kw kws ->
        PyStr.contains kw (PyStr.lower (PyStr.rstrip_slash u)) = false).
Proof.
  unfold is_valid_url.
  destruct (negb (PyStr.truthy u) || _) eqn:E1; [discriminate|].
  apply orb_false_iff in E1 as [Et Ep]. apply negb_false_iff in Et.
  destruct (negb (String.eqb _ dom)) eqn:E2; [discriminate|].
  apply negb_false_iff, String.eqb_eq in E2.
  destruct (bool_decide _) eqn:E3; [discriminate|]. apply bool_decide_eq_false in E3.
  destruct (existsb (PyStr.endswith _) skip_extensions) eqn:E4; [discriminate|].
  destruct (existsb _ kws) eqn:E5; [discriminate|]. intros _.
  split; [intros ->; discriminate|]. split.
  { intros p Hp. destruct (PyStr.startswith u p) eqn:E; [|reflexivity].
    assert (existsb (PyStr.startswith u) reject_prefixes = true)
      by (apply existsb_exists; eauto). congruence. }
  split; [exact E2|]. split; [exact E3|]. split.
  - intros ext Hext. destruct (PyStr.endswith _ ext) eqn:E; [|reflexivity].
    assert (existsb (PyStr.endswith (PyStr.lower (PyStr.rstrip_slash u)))
              skip_extensions = true) by (apply existsb_exists; eauto). congruence.
  - intros kw Hkw. destruct (PyStr.contains kw _) eqn:E; [|reflexivity].
    assert (existsb (fun keyword =>
              PyStr.contains keyword (PyStr.lower (PyStr.rstrip_slash u))) kws = true)
      by (apply existsb_exists; eauto). congruence.
Qed.

(* ===================================================================== *)
(** ** One pass of the loop, in full *)
(* ===================================================================== *)

Lemma is_already_in_queue_false (queue : list (string * Z)) (u : string) :
  is_already_in_queue queue u = false <-> PyStr.rstrip_slash u ∉ map norm queue.
Proof.
  unfold is_already_in_queue. induction queue as [|a queue IH]; simpl.
  - split; [intros _ H; inversion H|reflexivity].
  - rewrite orb_false_iff, IH, not_elem_of_cons.
    split; intros [H1 H2]; split; auto.
    + intros Heq. unfold norm in Heq. rewrite Heq, String.eqb_refl in H1.
      discriminate.
    + destruct (String.eqb _ _) eqn:E; [|reflexivity].
      apply String.eqb_eq in E. unfold norm in H1. congruence.
Qed.

Section AddLinks.

Context (cfg : Config).

Local Abbreviation valid' u visited :=
  (is_valid_url (SKIP_KEYWORDS cfg) u (DOMAIN cfg) visited).

(** The link loop in full: what it appends is a selection of the links,
    each valid, none already in the frontier under its normal form. *)
Lemma add_links_full (links : list string) (nu : string) (cd : Z)
    (visited : gset string) (queue : list (string * Z)) (e : Env) :
  exists added : list string,
    add_links cfg links nu cd visited queue e =
      (queue ++ map (fun c => (c, cd + 1)) added,
       mkEnv (conn e) (db_ops e) (gets e) (drivers e)
             (rev (map (fun c => EvEnqueue c (cd + 1) nu) added) ++ trace e))
    /\ Forall (fun c => valid' c visited = true) added
    /\ (length added <= length links)%nat
    /\ (NoDup (map norm queue) ->
        NoDup (map norm (queue ++ map (fun c => (c, cd + 1)) added))).
Proof.
  revert queue e. induction links as [|l links IH]; intros queue e; simpl.
  - exists []. simpl. rewrite app_nil_r. destruct e.
    split; [reflexivity|]. split; [constructor|]. split; [lia|auto].
  - destruct (negb (is_already_in_queue queue l) && valid' l visited) eqn:Hadd.
    + destruct (IH (queue ++ [(l, cd + 1)])
                   (log (EvEnqueue l (cd + 1) nu) e)) as (added & Heq & Hall & Hlen & Hnd).
      exists (l :: added). rewrite Heq. simpl.
      apply andb_true_iff in Hadd as [Hq Hv]. apply negb_true_iff in Hq.
      split; [rewrite <- !app_assoc; reflexivity|].
      split; [constructor; assumption|]. split; [lia|].
      intros Hnd0. replace (queue ++ (l, cd + 1) :: map (fun c => (c, cd + 1)) added)
        with ((queue ++ [(l, cd + 1)]) ++ map (fun c => (c, cd + 1)) added)
        by (rewrite <- app_assoc; reflexivity).
      apply Hnd. rewrite map_app. simpl. apply NoDup_app.
      split; [exact Hnd0|]. split.
      * intros x Hx Hx'. apply list_elem_of_singleton in Hx'. subst x.
        apply is_already_in_queue_false in Hq. contradiction.
      * apply NoDup_singleton.
    + destruct (IH queue e) as (added & Heq & Hall & Hlen & Hnd).
      exists added. split; [exact Heq|]. split; [exact Hall|]. split; [lia|exact Hnd].
Qed.

End AddLinks.

Lemma periodic_restart_full (cfg : Config) (W : World) (count : Z) (e e1 : Env) :
  periodic_restart cfg W count e = Some e1 ->
  conn e1 = conn e /\ db_ops e1 = db_ops e /\ gets e1 = gets e
  /\ trace e1 = (if count >? 0 then restart_due cfg count else []) ++ trace e
  /\ (0 < count -> DRIVER_RESTART_INTERVAL cfg <> 0).
Proof.
  unfold periodic_restart, restart_driver, get_driver, restart_due.
  destruct (count >? 0) eqn:Hpos.
  2:{ intros [= <-]. repeat split; auto. intros H.
      rewrite Z.gtb_ltb in Hpos. apply Z.ltb_ge in Hpos. lia. }
  destruct (DRIVER_RESTART_INTERVAL cfg =? 0) eqn:Hz; [discriminate|].
  apply Z.eqb_neq in Hz.
  destruct (count mod DRIVER_RESTART_INTERVAL cfg =? 0).
  - simpl. destruct (driver_starts W (drivers e)); [|discriminate].
    intros [= <-]. simpl. auto.
  - intros [= <-]. simpl. auto.
Qed.

Section Step.

Context (cfg : Config) (W : World).

Local Abbreviation valid2 u visited :=
  (is_valid_url (SKIP_KEYWORDS cfg) u (DOMAIN cfg) visited).

(** The five outcomes of one pass. *)
Lemma loop_iter_full (s : Crawl) :
  (urls_to_visit s = [] /\ loop_iter cfg W s = (Finished, s))
  \/ (urls_to_visit s <> [] /\ 0 < PAGE_LIMIT cfg
      /\ PAGE_LIMIT cfg <= pages_scraped_count s
      /\ loop_iter cfg W s = (Finished, s))
  \/ exists cu cd rest,
       urls_to_visit s = (cu, cd) :: rest
       /\ (0 < PAGE_LIMIT cfg -> pages_scraped_count s < PAGE_LIMIT cfg)
       /\ ((loop_iter cfg W s
            = (Running, mkCrawl rest (visited_urls s) (pages_scraped_count s) (env s))
            /\ (valid2 (PyStr.rstrip_slash cu) (visited_urls s) = false
                \/ MAX_DEPTH cfg < cd))
           \/ (valid2 (PyStr.rstrip_slash cu) (visited_urls s) = true
               /\ cd <= MAX_DEPTH cfg
               /\ ((periodic_restart cfg W (pages_scraped_count s + 1) (env s) = None
                    /\ loop_iter cfg W s
                       = (Aborted, mkCrawl rest
                                     (visited_urls s ∪ {[ PyStr.rstrip_slash cu ]})
                                     (pages_scraped_count s + 1) (env s)))
                   \/ exists n d stored added e' k,
                        let nu := PyStr.rstrip_slash cu in
                        let count := pages_scraped_count s + 1 in
                        let visited := visited_urls s ∪ {[ nu ]} in
                        loop_iter cfg W s
                        = (Running,
                           mkCrawl (rest ++ map (fun c => (c, cd + 1)) added)
                                   visited count e')
                        /\ trace e'
                           = page_events nu cd count
                               (if count >? 0 then restart_due cfg count else [])
                               n d stored added ++ trace (env s)
                        /\ (0 < count -> DRIVER_RESTART_INTERVAL cfg <> 0)
                        /\ (1 <= n)%nat
                        /\ url d = nu /\ page_depth d = cd /\ status_known d
                        /\ Forall (fun c => valid2 c visited = true) added
                        /\ (length added <= length (page_links W nu k))%nat
                        /\ (added <> [] -> cd < MAX_DEPTH cfg)
                        /\ (NoDup (map norm rest) ->
                            NoDup (map norm (rest ++ map (fun c => (c, cd + 1)) added)))
                        /\ (clean (conn (env s)) ->
                            clean (conn e')
                            /\ ((stored = true
                                 /\ exists tb, committed (conn (env s)) = Some tb
                                      /\ committed (conn e')
                                         = Some (<[nu := row_of d]> tb))
                                \/ (stored = false /\ conn e' = conn (env s))))))).
Proof.
  unfold loop_iter.
  destruct (urls_to_visit s) as [|[cu cd] rest] eqn:Hq; [left; auto|]. right.
  destruct ((PAGE_LIMIT cfg >? 0) && (pages_scraped_count s >=? PAGE_LIMIT cfg)) eqn:Hlim.
  { left. apply andb_true_iff in Hlim as [H1 H2].
    rewrite Z.gtb_ltb in H1. apply Z.ltb_lt in H1.
    rewrite Z.geb_leb in H2. apply Z.leb_le in H2.
    split; [discriminate|]. auto. }
  right. exists cu, cd, rest. split; [reflexivity|]. split.
  { intros Hpos. apply andb_false_iff in Hlim as [H|H].
    - rewrite Z.gtb_ltb in H. apply Z.ltb_ge in H. lia.
    - rewrite Z.geb_leb in H. apply Z.leb_gt in H. exact H. }
  destruct (negb (valid2 (PyStr.rstrip_slash cu) (visited_urls s))
            || (cd >? MAX_DEPTH cfg)) eqn:Hskip.
  { left. split; [reflexivity|]. apply orb_true_iff in Hskip as [H|H].
    - left. apply negb_true_iff in H. exact H.
    - right. rewrite Z.gtb_ltb in H. apply Z.ltb_lt in H. exact H. }
  apply orb_false_iff in Hskip as [Hv Hd].
  apply negb_false_iff in Hv. rewrite Z.gtb_ltb in Hd. apply Z.ltb_ge in Hd.
  right. split; [exact Hv|]. split; [exact Hd|].
  destruct (periodic_restart cfg W _ (env s)) as [e1|] eqn:Hr; [|left; auto].
  right. apply periodic_restart_full in Hr as (Hc1 & Ho1 & Hg1 & Ht1 & Hz).
  set (nu := PyStr.rstrip_slash cu) in *.
  set (count := pages_scraped_count s + 1) in *.
  set (e1' := log (EvScrape count nu cd) e1).
  destruct (scrape_spec cfg W nu cd 0 e1')
    as (n & d & success & e2 & Hcall & Hn & _ & Htr & Hconn & Hops & Hgets
        & Hdrv & Hrec).
  rewrite Hcall.
  assert (Hd3 : url d = nu /\ page_depth d = cd /\ status_known d
                /\ (success = true \/ success = false)).
  { unfold status_known.
    destruct Hrec as [(-> & soup & _ & ->)|(-> & _ & [[_ ->]|[_ ->]])]; simpl;
      (split; [apply rstrip_slash_idem|]); auto 6. }
  destruct Hd3 as (Hurl & Hdepth & Hstatus & _).
  assert (Hce : conn e2 = conn (env s)) by (rewrite Hconn; exact Hc1).
  assert (Hins : clean (conn (env s)) ->
            clean (conn (insert_data W d e2))
            /\ exists stored,
                 trace (insert_data W d e2) = EvUpsert d stored :: trace e2
                 /\ ((stored = true
                      /\ exists tb, committed (conn (env s)) = Some tb
                           /\ committed (conn (insert_data W d e2))
                              = Some (<[nu := row_of d]> tb))
                     \/ (stored = false /\ conn (insert_data W d e2) = conn (env s)))).
  { intros Hcl. rewrite <- Hce in Hcl. split; [apply insert_data_clean; exact Hcl|].
    destruct (insert_data_cases W d e2 Hcl) as [(Ht & tb & Htb & Htb')|(Ht & Hsame)].
    - exists true. split; [exact Ht|]. left. split; [reflexivity|].
      exists tb. rewrite <- Hce, <- Hurl. auto.
    - exists false. split; [exact Ht|]. right. rewrite <- Hce. auto. }
  destruct (insert_data_trace W d e2) as (stored0 & Hins0).
  assert (Hbase : trace e2 = attempts nu 0 n
                    ++ EvScrape count nu cd
                       :: (if count >? 0 then restart_due cfg count else [])
                       ++ trace (env s)).
  { rewrite Htr. subst e1'. simpl. rewrite Ht1. reflexivity. }
  destruct ((cd <? MAX_DEPTH cfg) && success) eqn:Hdeep.
  - destruct (add_links_full cfg (page_links W nu (gets (insert_data W d e2))) nu cd
                (visited_urls s ∪ {[nu]}) rest (insert_data W d e2))
      as (added & Hadd & Hall & Hlen & Hnd).
    rewrite Hadd.
    apply andb_true_iff in Hdeep as [Hlt _]. apply Z.ltb_lt in Hlt.
    exists n, d, stored0, added,
      (mkEnv (conn (insert_data W d e2)) (db_ops (insert_data W d e2))
             (gets (insert_data W d e2)) (drivers (insert_data W d e2))
             (rev (map (fun c => EvEnqueue c (cd + 1) nu) added)
              ++ trace (insert_data W d e2))),
      (gets (insert_data W d e2)).
    split; [reflexivity|]. simpl.
    split.
    { unfold page_events. rewrite Hins0, Hbase.
      rewrite <- !app_assoc. simpl. rewrite <- !app_assoc. reflexivity. }
    split; [exact Hz|]. split; [exact Hn|].
    split; [exact Hurl|]. split; [exact Hdepth|]. split; [exact Hstatus|].
    split; [exact Hall|]. split; [exact Hlen|]. split; [intros _; exact Hlt|].
    split; [exact Hnd|].
    intros Hcl. destruct (Hins Hcl) as (Hcl' & stored & Hst & Hcase).
    split; [exact Hcl'|].
    assert (stored0 = stored) by congruence. subst stored0. exact Hcase.
  - exists n, d, stored0, [], (insert_data W d e2), 0%nat.
    split; [simpl; rewrite app_nil_r; reflexivity|]. simpl.
    split.
    { unfold page_events. simpl. rewrite Hins0, Hbase.
      rewrite <- !app_assoc. reflexivity. }
    split; [exact Hz|]. split; [exact Hn|].
    split; [exact Hurl|]. split; [exact Hdepth|]. split; [exact Hstatus|].
    split; [constructor|]. split; [lia|]. split; [congruence|].
    split; [rewrite app_nil_r; auto|].
    intros Hcl. destruct (Hins Hcl) as (Hcl' & stored & Hst & Hcase).
    split; [exact Hcl'|].
    assert (stored0 = stored) by congruence. subst stored0. exact Hcase.
Qed.

End Step.

(* ===================================================================== *)
(** ** Histories made of whole pages *)
(* ===================================================================== *)

Lemma restart_due_cases (cfg : Config) (c : Z) :
  restart_due cfg c = [] \/ restart_due cfg c = [EvRestart c].
Proof. unfold restart_due. destruct (_ =? 0); auto. Qed.

Lemma fetched_depths_page_events nu cd count restarted n d stored added :
  restarted = [] \/ restarted = [EvRestart count] ->
  fetched_depths (page_events nu cd count restarted n d stored added) = [cd].
Proof.
  intros Hr. unfold fetched_depths, page_events.
  assert (He : omap (fun ev => match ev with EvScrape _ _ x => Some x | _ => None end)
                 (rev (map (fun c => EvEnqueue c (cd + 1) nu) added)) = []).
  { rewrite <- map_rev. induction (rev added); simpl; auto. }
  assert (Ha : omap (fun ev => match ev with EvScrape _ _ x => Some x | _ => None end)
                 (attempts nu 0 n) = []).
  { unfold attempts. induction (rev (seq 0 n)); simpl; auto. }
  rewrite omap_app, He. simpl. rewrite omap_app, Ha. simpl.
  destruct Hr as [-> | ->]; reflexivity.
Qed.



Lemma restarts_page_events nu cd count restarted n d stored added :
  restarts (page_events nu cd count restarted n d stored added) = restarts restarted.
Proof.
  unfold restarts, page_events.
  assert (He : omap (fun ev => match ev with EvRestart x => Some x | _ => None end)
                 (rev (map (fun c => EvEnqueue c (cd + 1) nu) added)) = []).
  { rewrite <- map_rev. induction (rev added); simpl; auto. }
  assert (Ha : omap (fun ev => match ev with EvRestart x => Some x | _ => None end)
                 (attempts nu 0 n) = []).
  { unfold attempts. induction (rev (seq 0 n)); simpl; auto. }
  rewrite omap_app, He. simpl. rewrite omap_app, Ha. reflexivity.
Qed.

Lemma schedule_page_events nu cd count restarted n d stored added :
  restarted = [] \/ restarted = [EvRestart count] ->
  schedule (page_events nu cd count restarted n d stored added)
  = restarted ++ [EvScrape count nu cd].
Proof.
  intros Hr. unfold schedule, page_events.
  rewrite rev_app_distr. simpl. rewrite rev_app_distr. simpl.
  rewrite rev_involutive, !List.filter_app. simpl.
  assert (He : List.filter (fun ev => match ev with
                                      | EvRestart _ | EvScrape _ _ _ => true
                                      | _ => false end)
                 (map (fun c => EvEnqueue c (cd + 1) nu) added) = []).
  { induction added; simpl; auto. }
  assert (Ha : List.filter (fun ev => match ev with
                                      | EvRestart _ | EvScrape _ _ _ => true
                                      | _ => false end)
                 (rev (attempts nu 0 n)) = []).
  { unfold attempts. rewrite <- map_rev. induction (rev (rev (seq 0 n))); simpl; auto. }
  rewrite He, app_nil_r, ?List.filter_app, Ha. simpl.
  destruct Hr as [-> | ->]; reflexivity.
Qed.

Lemma Pages_nonneg (cfg : Config) (tr : list Event) (c : Z) :
  Pages cfg tr c -> 0 <= c.
Proof. induction 1; lia. Qed.

Lemma Pages_fetched_length (cfg : Config) (tr : list Event) (c : Z) :
  Pages cfg tr c -> Z.of_nat (length (fetched_urls tr)) = c.
Proof.
  induction 1 as [|tr c nu cd n d stored added HP IH]; [reflexivity|].
  unfold fetched_urls in *. rewrite omap_app.
  fold (fetched_urls (page_events nu cd (c + 1) (restart_due cfg (c + 1)) n d stored added)).
  rewrite fetched_urls_page_events by apply restart_due_cases.
  simpl. lia.
Qed.


Lemma Pages_upsert (cfg : Config) (tr : list Event) (c : Z) (d : PageData) (b : bool) :
  Pages cfg tr c -> EvUpsert d b ∈ tr ->
  status_known d /\ exists n, EvScrape n (url d) (page_depth d) ∈ tr.
Proof.
  induction 1 as [|tr c nu cd n d0 stored added HP IH Hz Hn Hurl Hdepth Hst];
    intros Hin; [inversion Hin|].
  apply elem_of_app in Hin as [Hin|Hin].
  - apply (elem_of_page_events _ _ _ _ _ _ _ _ _ (restart_due_cases cfg (c + 1))) in Hin.
    destruct Hin as [(x & _ & Hx)|[Hx|[(k & Hx)|[Hx|Hx]]]]; try discriminate.
    injection Hx as -> ->. split; [exact Hst|].
    exists (c + 1). rewrite Hurl, Hdepth. apply elem_of_app. left.
    unfold page_events. apply elem_of_app. right. right.
    apply elem_of_app. right. left.
  - destruct (IH Hin) as (H1 & m & H2). split; [exact H1|].
    exists m. apply elem_of_app. right. exact H2.
Qed.


Lemma Pages_restarts (cfg : Config) (tr : list Event) (c : Z) :
  Pages cfg tr c ->
  (forall r, r ∈ restarts tr ->
     1 <= r <= c /\ r mod DRIVER_RESTART_INTERVAL cfg = 0)
  /\ (0 < DRIVER_RESTART_INTERVAL cfg ->
      Z.of_nat (length (restarts tr)) = c / DRIVER_RESTART_INTERVAL cfg).
Proof.
  induction 1 as [|tr c nu cd n d stored added HP [IH1 IH2] Hz].
  { split; [intros r Hr; inversion Hr|]. intros Hpos. rewrite Z.div_0_l by lia. reflexivity. }
  pose proof (Pages_nonneg _ _ _ HP) as Hc.
  unfold restarts in *. rewrite omap_app.
  fold (restarts (page_events nu cd (c + 1) (restart_due cfg (c + 1)) n d stored added)).
  rewrite restarts_page_events. unfold restart_due.
  destruct ((c + 1) mod DRIVER_RESTART_INTERVAL cfg =? 0) eqn:Hm.
  - apply Z.eqb_eq in Hm. simpl. split.
    + intros r [->|Hr]%elem_of_cons; [split; [lia|exact Hm]|].
      destruct (IH1 r Hr). split; [lia|assumption].
    + intros Hpos. specialize (IH2 Hpos).
      rewrite Nat2Z.inj_succ, IH2.
      pose proof (Z.div_mod (c + 1) (DRIVER_RESTART_INTERVAL cfg) ltac:(lia)) as E1.
      pose proof (Z.div_mod c (DRIVER_RESTART_INTERVAL cfg) ltac:(lia)) as E2.
      pose proof (Z.mod_pos_bound c (DRIVER_RESTART_INTERVAL cfg) Hpos) as B2.
      rewrite Hm in E1. nia.
  - apply Z.eqb_neq in Hm. simpl. split.
    + intros r Hr. destruct (IH1 r Hr). split; [lia|assumption].
    + intros Hpos. specialize (IH2 Hpos). rewrite IH2.
      pose proof (Z.div_mod (c + 1) (DRIVER_RESTART_INTERVAL cfg) ltac:(lia)) as E1.
      pose proof (Z.div_mod c (DRIVER_RESTART_INTERVAL cfg) ltac:(lia)) as E2.
      pose proof (Z.mod_pos_bound c (DRIVER_RESTART_INTERVAL cfg) Hpos) as B2.
      pose proof (Z.mod_pos_bound (c + 1) (DRIVER_RESTART_INTERVAL cfg) Hpos) as B1.
      nia.
Qed.

(* ===================================================================== *)
(** ** The second invariant *)
(* ===================================================================== *)

Lemma StronglySorted_app_intro {A : Type} (R : A -> A -> Prop) (l1 l2 : list A) :
  StronglySorted R l1 -> StronglySorted R l2 ->
  (forall a b, a ∈ l1 -> b ∈ l2 -> R a b) ->
  StronglySorted R (l1 ++ l2).
Proof.
  induction 1 as [|x l1 Hs IH Hx]; intros H2 Hc; simpl; [exact H2|].
  constructor.
  - apply IH; [exact H2|]. intros a b Ha Hb. apply Hc; [right; exact Ha|exact Hb].
  - apply Forall_app. split; [exact Hx|].
    apply Forall_forall. intros b Hb. apply Hc; [left|exact Hb].
Qed.

Lemma StronglySorted_same_depth (cd : Z) (added : list string) :
  StronglySorted (fun a b : string * Z => a.2 <= b.2)
    (map (fun c => (c, cd)) added).
Proof.
  induction added as [|c added IH]; simpl; constructor; [exact IH|].
  apply Forall_forall. intros b Hb.
  apply list_elem_of_fmap in Hb as (x & -> & _). simpl. lia.
Qed.

Lemma valid_rstrip_nonempty (kws : list string) (u dom : string) (visited : gset string) :
  dom <> EmptyString -> is_valid_url kws u dom visited = true ->
  PyStr.rstrip_slash u <> EmptyString.
Proof.
  intros Hdom Hv Hempty. apply is_valid_url_accepts in Hv as (_ & _ & Hn & _).
  rewrite Hempty in Hn. apply Hdom. rewrite <- Hn. reflexivity.
Qed.

Section SecondInvariant.

Context (cfg : Config) (W : World).

Lemma Good_loop_iter (s s' : Crawl) :
  Inv cfg s -> Good cfg s -> loop_iter cfg W s = (Running, s') -> Good cfg s'.
Proof.
  intros HI HG Hstep.
  destruct (loop_iter_full cfg W s) as [[_ H]|[(_ & _ & _ & H)|H]];
    try (rewrite H in Hstep; discriminate).
  destruct H as (cu & cd & rest & Hq & Hlim & Hcase).
  destruct HG as [Gc Gl Gv Gp Gs Gspan Gb Gfs Gt Gr Gst Gnd Gqv Ge].
  rewrite Hq in Gs, Gspan, Gb, Gnd, Gqv, Ge.
  assert (Hhead : Forall (fun a : string * Z => cd <= a.2) rest)
    by (inversion Gs; assumption).
  rewrite Forall_forall in Hhead.
  assert (Hrest_sorted : StronglySorted (fun a b : string * Z => a.2 <= b.2) rest)
    by (inversion Gs; assumption).
  assert (Hnd_rest : NoDup (map norm rest) /\ norm (cu, cd) ∉ map norm rest).
  { simpl in Gnd. apply NoDup_cons in Gnd. tauto. }
  destruct Hnd_rest as [Hnd_rest Hfresh_q].
  assert (Hin_rest : forall a, a ∈ rest -> a ∈ (cu, cd) :: rest) by (intros; right; auto).
  assert (Hin_head : (cu, cd) ∈ (cu, cd) :: rest) by left.
  destruct Hcase as [[Hskip Hwhy]|(Hvalid & Hdepth & Hpage)].
  { (* the head is dropped *)
    rewrite Hskip in Hstep. injection Hstep as <-.
    constructor; simpl; auto.
    intros Hdom c d p Hin. destruct (Ge Hdom c d p Hin) as [Hmem|Hdone]; [|auto].
    apply elem_of_cons in Hmem as [Heq|Hmem]; [|auto]. exfalso.
    injection Heq as -> ->.
    destruct (Gqv _ Hin_head) as [Hseed|[Hv Hd]].
    - injection Hseed as _ ->.
      destruct (inv_enqueue _ _ HI _ _ _ Hin) as (m & dp & Hs & Hd & _).
      apply (inv_fetch _ _ HI) in Hs. lia.
    - simpl in Hv, Hd. destruct Hwhy as [Hbad|Hbad]; [|lia].
      rewrite is_valid_url_rstrip in Hbad by (eapply valid_rstrip_nonempty; eauto).
      congruence. }
  destruct Hpage as [[_ Habort]|Hpage]; [rewrite Habort in Hstep; discriminate|].
  destruct Hpage as (n & d & stored & added & e' & k & Heq & Htr & Hz & Hn & Hurl
                     & Hdep & Hstat & Hall & Hlen & Hdeep & Hnd & Hconn).
  rewrite Heq in Hstep. injection Hstep as <-.
  set (nu := PyStr.rstrip_slash cu) in *.
  pose proof (Pages_nonneg _ _ _ Gp) as Hc0.
  assert (Hpos : (pages_scraped_count s + 1 >? 0) = true)
    by (rewrite Z.gtb_ltb; apply Z.ltb_lt; lia).
  rewrite Hpos in Htr.
  pose proof (restart_due_cases cfg (pages_scraped_count s + 1)) as Hrd.
  assert (Hnew : nu ∉ visited_urls s).
  { apply is_valid_url_not_visited in Hvalid. subst nu.
    rewrite rstrip_slash_idem in Hvalid. exact Hvalid. }
  destruct (Hconn (inv_clean _ _ HI)) as (Hclean' & Htable).
  assert (Hfetched : fetched_urls (trace e') = nu :: fetched_urls (trace (env s))).
  { rewrite Htr. unfold fetched_urls. rewrite omap_app.
    fold (fetched_urls (page_events nu cd (pages_scraped_count s + 1)
            (restart_due cfg (pages_scraped_count s + 1)) n d stored added)).
    rewrite fetched_urls_page_events by exact Hrd. reflexivity. }
  assert (Hdepths : fetched_depths (trace e') = cd :: fetched_depths (trace (env s))).
  { rewrite Htr. unfold fetched_depths. rewrite omap_app.
    fold (fetched_depths (page_events nu cd (pages_scraped_count s + 1)
            (restart_due cfg (pages_scraped_count s + 1)) n d stored added)).
    rewrite fetched_depths_page_events by exact Hrd. reflexivity. }
  assert (Hold_upsert : forall d0 b, EvUpsert d0 b ∈ trace (env s) -> url d0 <> nu).
  { intros d0 b Hin Heq0. destruct (Pages_upsert _ _ _ _ _ Gp Hin) as (_ & m & Hs).
    apply Hnew. apply (inv_fetched_visited _ _ HI).
    apply elem_of_fetched_urls. rewrite <- Heq0. eauto. }
  assert (Hupsert_new : forall d0 b, EvUpsert d0 b ∈ trace e' ->
            (d0 = d /\ b = stored) \/ EvUpsert d0 b ∈ trace (env s)).
  { intros d0 b Hin. rewrite Htr in Hin. apply elem_of_app in Hin as [Hin|Hin]; [|auto].
    apply (elem_of_page_events _ _ _ _ _ _ _ _ _ Hrd) in Hin.
    destruct Hin as [(x & _ & Hx)|[Hx|[(j & Hx)|[Hx|Hx]]]]; try discriminate.
    injection Hx as -> ->. auto. }
  constructor; simpl.
  - (* the counter counts the visited URLs *)
    rewrite size_union by (apply disjoint_singleton_r; exact Hnew).
    rewrite size_singleton. lia.
  - intros Hp. specialize (Hlim Hp). lia.
  - intros u Hu. rewrite Hfetched in Hu. apply elem_of_cons in Hu as [->|Hu]; [|auto].
    eapply is_valid_url_antimono; [|exact Hvalid]. apply empty_subseteq.
  - rewrite Htr. apply Pages_cons; auto. apply Hz. lia.
  - apply StronglySorted_app_intro; [exact Hrest_sorted|apply StronglySorted_same_depth|].
    intros a b Ha Hb. apply list_elem_of_fmap in Hb as (x & -> & _). simpl.
    specialize (Gspan (cu, cd) a Hin_head (Hin_rest _ Ha)). simpl in Gspan. exact Gspan.
  - intros a b [Ha|Ha]%elem_of_app [Hb|Hb]%elem_of_app.
    + apply Gspan; auto.
    + apply list_elem_of_fmap in Hb as (x & -> & _). simpl.
      specialize (Hhead a Ha). lia.
    + apply list_elem_of_fmap in Ha as (x & -> & _). simpl.
      specialize (Gspan (cu, cd) b Hin_head (Hin_rest _ Hb)). simpl in Gspan. lia.
    + apply list_elem_of_fmap in Ha as (x & -> & _).
      apply list_elem_of_fmap in Hb as (y & -> & _). simpl. lia.
  - intros d0 a Hd0 Ha. rewrite Hdepths in Hd0.
    assert (Hd0' : d0 <= cd).
    { apply elem_of_cons in Hd0 as [->|Hd0]; [lia|].
      specialize (Gb d0 (cu, cd) Hd0 Hin_head). exact Gb. }
    apply elem_of_app in Ha as [Ha|Ha].
    + specialize (Hhead a Ha). lia.
    + apply list_elem_of_fmap in Ha as (x & -> & _). simpl. lia.
  - rewrite Hdepths. constructor; [exact Gfs|].
    apply Forall_forall. intros d0 Hd0.
    specialize (Gb d0 (cu, cd) Hd0 Hin_head). exact Gb.
  - destruct Htable as [(_ & tb & _ & Htb)|(_ & Hsame)]; [eauto|].
    rewrite Hsame. exact Gt.
  - intros tb0 k0 r Hc Hk.
    destruct Htable as [(-> & tb & Htb & Htb')|(-> & Hsame)].
    + rewrite Htb' in Hc. injection Hc as <-.
      destruct (decide (nu = k0)) as [<-|Hne].
      * rewrite lookup_insert_eq in Hk. injection Hk as <-.
        exists d. split; [|auto]. rewrite Htr. apply elem_of_app. left.
        unfold page_events. apply elem_of_app. right. left.
      * rewrite lookup_insert_ne in Hk by exact Hne.
        destruct (Gr tb k0 r Htb Hk) as (d0 & Hin & Hd0).
        exists d0. split; [|exact Hd0]. rewrite Htr. apply elem_of_app. right. exact Hin.
    + rewrite Hsame in Hc. destruct (Gr tb0 k0 r Hc Hk) as (d0 & Hin & Hd0).
      exists d0. split; [|exact Hd0]. rewrite Htr. apply elem_of_app. right. exact Hin.
  - intros tb0 d0 Hc Hin.
    destruct (Hupsert_new d0 true Hin) as [[-> Hst]|Hold].
    + destruct Htable as [(_ & tb & Htb & Htb')|(Hf & _)]; [|congruence].
      rewrite Htb' in Hc. injection Hc as <-. rewrite Hurl. apply lookup_insert_eq.
    + destruct Htable as [(_ & tb & Htb & Htb')|(_ & Hsame)].
      * rewrite Htb' in Hc. injection Hc as <-.
        rewrite lookup_insert_ne by (intros E; eapply Hold_upsert; eauto).
        apply Gst; auto.
      * rewrite Hsame in Hc. apply Gst; auto.
  - apply Hnd. exact Hnd_rest.
  - intros a [Ha|Ha]%elem_of_app.
    + destruct (Gqv a (Hin_rest _ Ha)) as [?|[Hv Hd]]; [auto|]. right. split; [|exact Hd].
      rewrite is_valid_url_other_visited; [exact Hv|].
      intros E. apply Hfresh_q. unfold norm at 1. simpl. fold nu. rewrite <- E.
      apply list_elem_of_fmap. exists a. auto.
    + apply list_elem_of_fmap in Ha as (x & -> & Hx). right. simpl.
      rewrite Forall_forall in Hall. split; [apply Hall; exact Hx|].
      assert (added <> []) by (intros ->; inversion Hx). specialize (Hdeep H). lia.
  - intros Hdom c dd p Hin. rewrite Htr in Hin. apply elem_of_app in Hin as [Hin|Hin].
    + apply (elem_of_page_events _ _ _ _ _ _ _ _ _ Hrd) in Hin.
      destruct Hin as [(x & Hx & Hev)|[Hx|[(j & Hx)|[Hx|Hx]]]]; try discriminate.
      injection Hev as -> -> _. left. apply elem_of_app. right.
      apply list_elem_of_fmap. exists x. auto.
    + destruct (Ge Hdom c dd p Hin) as [Hmem|(m & Hdone)].
      * apply elem_of_cons in Hmem as [Heq0|Hmem].
        { injection Heq0 as -> ->. right. exists (pages_scraped_count s + 1).
          rewrite Htr. apply elem_of_app. left. unfold page_events.
          apply elem_of_app. right. right. apply elem_of_app. right. left. }
        left. apply elem_of_app. left. exact Hmem.
      * right. exists m. rewrite Htr. apply elem_of_app. right. exact Hdone.
Qed.

End SecondInvariant.


Section Shape.

Context (cfg : Config) (W : World).

Local Abbreviation valid3 u visited :=
  (is_valid_url (SKIP_KEYWORDS cfg) u (DOMAIN cfg) visited).

Lemma loop_shape (fuel : nat) (s : Crawl) :
  Inv cfg s -> Good cfg s ->
  ((loop cfg W fuel s).1 <> Aborted
   /\ Inv cfg (loop cfg W fuel s).2 /\ Good cfg (loop cfg W fuel s).2
   /\ ((loop cfg W fuel s).1 = Finished ->
       urls_to_visit (loop cfg W fuel s).2 = []
       \/ (0 < PAGE_LIMIT cfg
           /\ PAGE_LIMIT cfg <= pages_scraped_count (loop cfg W fuel s).2)))
  \/ ((loop cfg W fuel s).1 = Aborted
      /\ exists s1, Inv cfg s1 /\ Good cfg s1 /\ aborted_from cfg W s1 (loop cfg W fuel s).2).
Proof.
  revert s. induction fuel as [|fuel IH]; intros s HI HG; simpl.
  { left. split; [discriminate|]. split; [exact HI|]. split; [exact HG|]. discriminate. }
  destruct (loop_iter cfg W s) as [st s'] eqn:Hstep. destruct st.
  - apply IH; [eapply Inv_loop_iter; eauto|eapply Good_loop_iter; eauto].
  - left. simpl.
    destruct (loop_iter_full cfg W s) as [[Hq H]|[(Hq & Hp & Hl & H)|H]].
    + rewrite H in Hstep. injection Hstep as <-.
      split; [discriminate|]. split; [exact HI|]. split; [exact HG|]. auto.
    + rewrite H in Hstep. injection Hstep as <-.
      split; [discriminate|]. split; [exact HI|]. split; [exact HG|]. auto.
    + destruct H as (cu & cd & rest & _ & _ & [[H _]|(_ & _ & [[_ H]|H])]).
      * rewrite H in Hstep. discriminate.
      * rewrite H in Hstep. discriminate.
      * destruct H as (n & d & stored & added & e' & k & H & _).
        rewrite H in Hstep. discriminate.
  - right. simpl. split; [reflexivity|]. exists s. split; [exact HI|]. split; [exact HG|].
    destruct (loop_iter_full cfg W s) as [[Hq H]|[(Hq & Hp & Hl & H)|H]];
      try (rewrite H in Hstep; discriminate).
    destruct H as (cu & cd & rest & Hq & Hlim & [[H _]|(Hv & Hd & [[Hr H]|H])]).
    + rewrite H in Hstep. discriminate.
    + rewrite H in Hstep. injection Hstep as <-.
      exists cu, cd, rest. auto 10.
    + destruct H as (n & d & stored & added & e' & k & H & _).
      rewrite H in Hstep. discriminate.
Qed.

Lemma Good_startup (db0 : option (gmap string Row)) (s : Crawl) :
  startup W (initial cfg db0) = Some s -> Good cfg s.
Proof.
  intros H. apply (startup_spec cfg) in H as (Hq & Hv & Hn & Ht & Hc & Hcl & _).
  constructor; rewrite ?Hq, ?Hv, ?Hn, ?Ht, ?Hc; simpl.
  - reflexivity.
  - intros. lia.
  - intros u Hu. inversion Hu.
  - constructor.
  - repeat constructor.
  - intros a b Ha Hb. apply list_elem_of_singleton in Ha, Hb. subst. simpl. lia.
  - intros d a Hd. inversion Hd.
  - constructor.
  - eauto.
  - intros tb k r [= <-] Hk. rewrite lookup_empty in Hk. discriminate.
  - intros tb d _ Hd. inversion Hd.
  - apply NoDup_singleton.
  - intros a Ha. apply list_elem_of_singleton in Ha. auto.
  - intros _ c d p Hin. inversion Hin.
Qed.

(** The three ways a run can stand: stopped at start-up; past start-up
    and not aborted; past start-up and aborted in the loop. *)
Lemma crawl_shape (fuel : nat) (db0 : option (gmap string Row)) :
  (startup W (initial cfg db0) = None
   /\ crawl_website cfg W fuel db0 = (Aborted, initial cfg db0))
  \/ (is_Some (startup W (initial cfg db0))
      /\ (crawl_website cfg W fuel db0).1 <> Aborted
      /\ Inv cfg (crawl_website cfg W fuel db0).2
      /\ Good cfg (crawl_website cfg W fuel db0).2
      /\ ((crawl_website cfg W fuel db0).1 = Finished ->
          urls_to_visit (crawl_website cfg W fuel db0).2 = []
          \/ (0 < PAGE_LIMIT cfg
              /\ PAGE_LIMIT cfg <= pages_scraped_count (crawl_website cfg W fuel db0).2)))
  \/ (is_Some (startup W (initial cfg db0))
      /\ (crawl_website cfg W fuel db0).1 = Aborted
      /\ exists s1, Inv cfg s1 /\ Good cfg s1
                    /\ aborted_from cfg W s1 (crawl_website cfg W fuel db0).2).
Proof.
  unfold crawl_website.
  destruct (startup W (initial cfg db0)) as [s0|] eqn:Hs; [right|left; auto].
  destruct (loop_shape fuel s0 (Inv_startup cfg W db0 s0 Hs) (Good_startup db0 s0 Hs))
    as [H|H]; [left|right]; (split; [eauto|exact H]).
Qed.

End Shape.

(* ===================================================================== *)
(** ** What every run guarantees, continued *)
(* ===================================================================== *)

(** The history and the counters of a run, in each of its three shapes. *)
Lemma run_history (cfg : Config) (W : World) (fuel : nat)
    (db0 : option (gmap string Row)) :
  let s := (crawl_website cfg W fuel db0).2 in
  let tr := trace (env s) in
  exists c,
    Pages cfg tr c
    /\ (pages_scraped_count s = c
        \/ ((crawl_website cfg W fuel db0).1 = Aborted /\ pages_scraped_count s = c + 1))
    /\ (forall u, u ∈ fetched_urls tr ->
          is_valid_url (SKIP_KEYWORDS cfg) u (DOMAIN cfg) ∅ = true
          /\ PyStr.rstrip_slash u = u /\ u ∈ visited_urls s)
    /\ StronglySorted (fun a b : Z => b <= a) (fetched_depths tr)
    /\ pages_scraped_count s = Z.of_nat (size (visited_urls s))
    /\ (0 < PAGE_LIMIT cfg -> pages_scraped_count s <= PAGE_LIMIT cfg)
    /\ (forall n u d, EvScrape n u d ∈ tr -> 0 <= d <= MAX_DEPTH cfg).
Proof.
  intros s tr. subst s tr.
  destruct (crawl_shape cfg W fuel db0)
    as [[_ ->]|[(_ & Hna & HI & HG & _)|(_ & Hab & s1 & HI & HG & Hfrom)]].
  - exists 0. simpl. split; [constructor|]. split; [auto|].
    split; [intros u Hu; inversion Hu|]. split; [constructor|].
    split; [reflexivity|]. split; [intros; lia|]. intros n u d Hu. inversion Hu.
  - exists (pages_scraped_count (crawl_website cfg W fuel db0).2).
    destruct HG. destruct HI.
    split; [assumption|]. split; [auto|]. split; [|split; [assumption|]].
    + intros u Hu. split; [auto|]. split; auto.
    + split; [assumption|]. split; [assumption|].
      intros n u d Hu. apply inv_fetch0 in Hu. tauto.
  - destruct Hfrom as (cu & cd & rest & Hq & Hlim & Hv & Hd & Hr & ->). simpl.
    exists (pages_scraped_count s1). destruct HG. destruct HI.
    split; [assumption|]. split; [right; auto|].
    split; [|split; [assumption|split; [|split]]].
    + intros u Hu. split; [auto|]. split; [auto|].
      apply elem_of_union. left. auto.
    + assert (Hnew : PyStr.rstrip_slash cu ∉ visited_urls s1).
      { apply is_valid_url_not_visited in Hv.
        rewrite rstrip_slash_idem in Hv. exact Hv. }
      rewrite size_union by (apply disjoint_singleton_r; exact Hnew).
      rewrite size_singleton. lia.
    + intros Hp. specialize (Hlim Hp). lia.
    + intros n u d Hu. apply inv_fetch0 in Hu. tauto.
Qed.

(** X10.  The page counter counts the visited URLs: at every moment it
    equals the number of distinct URLs in the visited set.  It equals the
    number of pages handed to the retry routine as well, except in a run
    that was aborted at a driver restart, where the page being started
    was counted and marked visited but not scraped.  With a page limit
    [PAGE_LIMIT > 0] the counter, and with it the number of pages
    scraped, never exceeds the limit. *)
Theorem page_counter_counts_visited (cfg : Config) (W : World) (fuel : nat)
    (db0 : option (gmap string Row)) :
  let r := crawl_website cfg W fuel db0 in
  let fetched := fetched_urls (trace (env r.2)) in
  pages_scraped_count r.2 = Z.of_nat (size (visited_urls r.2))
  /\ (r.1 <> Aborted -> pages_scraped_count r.2 = Z.of_nat (length fetched))
  /\ Z.of_nat (length fetched) <= pages_scraped_count r.2 <= Z.of_nat (length fetched) + 1
  /\ (0 < PAGE_LIMIT cfg ->
      pages_scraped_count r.2 <= PAGE_LIMIT cfg
      /\ Z.of_nat (length fetched) <= PAGE_LIMIT cfg).
Proof.
  intros r fetched. subst r fetched.
  destruct (run_history cfg W fuel db0) as (c & HP & Hc & _ & _ & Hsize & Hlim & _).
  apply Pages_fetched_length in HP. rewrite HP.
  split; [exact Hsize|]. split; [|split].
  - intros Hna. destruct Hc as [Hc|[Hab _]]; [exact Hc|contradiction].
  - destruct Hc as [Hc|[_ Hc]]; lia.
  - intros Hp. specialize (Hlim Hp). destruct Hc as [Hc|[_ Hc]]; lia.
Qed.

Lemma page_counter_counts_visited_witness :
  0 < PAGE_LIMIT (mkConfig "http://x" 1 [] 2 2 3)
  /\ pages_scraped_count
       (crawl_website (mkConfig "http://x" 1 [] 2 2 3) Demo.site 10 (Some ∅)).2
     <= PAGE_LIMIT (mkConfig "http://x" 1 [] 2 2 3).
Proof.
  split; [reflexivity|].
  apply (proj2 (proj2 (proj2
           (page_counter_counts_visited (mkConfig "http://x" 1 [] 2 2 3)
              Demo.site 10 (Some ∅))))).
  reflexivity.
Defined.

(** X11.  The crawler never leaves its domain and never fetches a
    filtered URL: every URL handed to the retry routine is non-empty,
    starts with none of [mailto:], [tel:], [#], [javascript:], has the
    network location of the start URL, and in lower case ends with none
    of the skip extensions and contains none of the skip keywords. *)
Theorem fetched_urls_are_eligible (cfg : Config) (W : World) (fuel : nat)
    (db0 : option (gmap string Row)) (u : string) :
  u ∈ fetched_urls (trace (env (crawl_website cfg W fuel db0).2)) ->
  u <> EmptyString
  /\ (forall p, In p reject_prefixes -> PyStr.startswith u p = false)
  /\ Url.netloc u = DOMAIN cfg
  /\ (forall ext, In ext skip_extensions -> PyStr.endswith (PyStr.lower u) ext = false)
  /\ (forall kw, In kw (SKIP_KEYWORDS cfg) -> PyStr.contains kw (PyStr.lower u) = false).
Proof.
  intros Hu.
  destruct (run_history cfg W fuel db0) as (c & _ & _ & Hf & _).
  destruct (Hf u Hu) as (Hv & Hn & _).
  apply is_valid_url_accepts in Hv as (H1 & H2 & H3 & _ & H5 & H6).
  rewrite Hn in H3, H5, H6. auto.
Qed.

Lemma fetched_urls_are_eligible_witness :
  "http://x/a" ∈ fetched_urls (trace (env (crawl_website Demo.cfg Demo.site 10 (Some ∅)).2))
  /\ Url.netloc "http://x/a" = DOMAIN Demo.cfg.
Proof.
  assert (H : "http://x/a"
              ∈ fetched_urls (trace (env (crawl_website Demo.cfg Demo.site 10 (Some ∅)).2))).
  { vm_compute. apply list_elem_of_In. simpl. auto. }
  split; [exact H|].
  apply (fetched_urls_are_eligible Demo.cfg Demo.site 10 (Some ∅) "http://x/a" H).
Defined.

Lemma split_commas_nonempty (s : string) : split_commas s <> [].
Proof.
  induction s as [|c s IH]; simpl; [discriminate|].
  destruct (Ascii.eqb c ","); [discriminate|].
  destruct (split_commas s); discriminate.
Qed.

Lemma split_commas_trailing (s : string) :
  split_commas (s ++ ",")%string = split_commas s ++ [EmptyString].
Proof.
  induction s as [|c s IH]; simpl; [reflexivity|].
  destruct (Ascii.eqb c ","); [rewrite IH; reflexivity|].
  rewrite IH. pose proof (split_commas_nonempty s) as Hne.
  destruct (split_commas s); [contradiction|reflexivity].
Qed.

Lemma Pages_zero (cfg : Config) (tr : list Event) (c : Z) :
  Pages cfg tr c -> c <= 0 -> tr = [].
Proof.
  destruct 1 as [|tr c nu cd n d stored added HP]; [reflexivity|].
  apply Pages_nonneg in HP. lia.
Qed.

(** X12.  A skip keyword that is the empty string rejects every URL,
    since the empty string occurs in every string: the run then scrapes
    nothing at all, counts no page and leaves the history empty.  The
    list read from the environment (line 31) contains the empty string
    whenever the value is empty, starts with a comma or ends with a
    comma. *)
Theorem empty_skip_keyword_stops_crawl (cfg : Config) (W : World) (fuel : nat)
    (db0 : option (gmap string Row)) :
  (forall v, v = EmptyString \/ (exists v', v = ("," ++ v')%string)
             \/ (exists v', v = (v' ++ ",")%string) ->
     In EmptyString (SKIP_KEYWORDS_of_env (Some v)))
  /\ (forall u dom visited,
        In EmptyString (SKIP_KEYWORDS cfg) ->
        is_valid_url (SKIP_KEYWORDS cfg) u dom visited = false)
  /\ (In EmptyString (SKIP_KEYWORDS cfg) ->
      trace (env (crawl_website cfg W fuel db0).2) = []
      /\ fetched_urls (trace (env (crawl_website cfg W fuel db0).2)) = []
      /\ pages_scraped_count (crawl_website cfg W fuel db0).2 = 0).
Proof.
  split; [|split].
  - intros v [->|[(v' & ->)|(v' & ->)]]; unfold SKIP_KEYWORDS_of_env; simpl.
    + auto.
    + auto.
    + rewrite split_commas_trailing. apply in_or_app. right. left. reflexivity.
  - intros u dom visited Hin. apply is_valid_url_empty_keyword. exact Hin.
  - intros Hin.
    assert (Hnone : forall u visited,
              is_valid_url (SKIP_KEYWORDS cfg) u (DOMAIN cfg) visited = true -> False).
    { intros u visited Hv. rewrite is_valid_url_empty_keyword in Hv by exact Hin.
      discriminate. }
    destruct (run_history cfg W fuel db0) as (c & HP & Hc & Hf & _).
    assert (Hnil : fetched_urls (trace (env (crawl_website cfg W fuel db0).2)) = []).
    { destruct (fetched_urls _) as [|u l] eqn:E; [reflexivity|].
      exfalso. destruct (Hf u ltac:(left)) as (Hv & _). eapply Hnone; eauto. }
    pose proof (Pages_fetched_length _ _ _ HP) as Hlen. rewrite Hnil in Hlen.
    simpl in Hlen. subst c.
    split; [eapply Pages_zero; [exact HP|lia]|]. split; [exact Hnil|].
    destruct Hc as [Hc|[Hab Hc]]; [exact Hc|]. exfalso.
    destruct (crawl_shape cfg W fuel db0)
      as [[_ Heq]|[(_ & Hna & _)|(_ & _ & s1 & _ & _ & Hfrom)]].
    + rewrite Heq in Hc. simpl in Hc. lia.
    + contradiction.
    + destruct Hfrom as (cu & cd & rest & _ & _ & Hv & _). eapply Hnone; eauto.
Qed.

Lemma empty_skip_keyword_stops_crawl_witness :
  In EmptyString (SKIP_KEYWORDS (mkConfig "http://x" 1 (SKIP_KEYWORDS_of_env (Some "login,"))
                                   2 2 0))
  /\ trace (env (crawl_website
                   (mkConfig "http://x" 1 (SKIP_KEYWORDS_of_env (Some "login,")) 2 2 0)
                   Demo.site 10 (Some ∅)).2) = [].
Proof.
  split; [simpl; auto|].
  apply (proj2 (proj2 (empty_skip_keyword_stops_crawl
           (mkConfig "http://x" 1 (SKIP_KEYWORDS_of_env (Some "login,")) 2 2 0)
           Demo.site 10 (Some ∅)))).
  simpl; auto.
Defined.


Lemma schedule_ok_app (interval : Z) (l1 l2 : list Event) :
  schedule_ok interval l1 -> schedule_ok interval l2 ->
  schedule_ok interval (l1 ++ l2).
Proof.
  remember (length l1) as m eqn:Hm. revert l1 Hm.
  induction m as [m IH] using lt_wf_ind. intros l1 Hm H1 H2.
  destruct l1 as [|ev l1]; [exact H2|].
  destruct ev; simpl in H1; try contradiction.
  - destruct l1 as [|ev' l1]; [contradiction|].
    destruct ev'; try contradiction.
    destruct H1 as (Hc & Hmod & H1). simpl.
    split; [exact Hc|]. split; [exact Hmod|].
    apply (IH (length l1)); [simpl in Hm; lia|reflexivity|exact H1|exact H2].
  - destruct H1 as (Hmod & H1). simpl. split; [exact Hmod|].
    apply (IH (length l1)); [simpl in Hm; lia|reflexivity|exact H1|exact H2].
Qed.

Lemma schedule_app (tr1 tr2 : list Event) :
  schedule (tr1 ++ tr2) = schedule tr2 ++ schedule tr1.
Proof. unfold schedule. rewrite rev_app_distr, List.filter_app. reflexivity. Qed.

Lemma Pages_schedule_ok (cfg : Config) (tr : list Event) (c : Z) :
  Pages cfg tr c -> schedule_ok (DRIVER_RESTART_INTERVAL cfg) (schedule tr).
Proof.
  induction 1 as [|tr c nu cd n d stored added HP IH]; [exact I|].
  rewrite schedule_app. apply schedule_ok_app; [exact IH|].
  rewrite schedule_page_events by apply restart_due_cases.
  unfold restart_due.
  destruct ((c + 1) mod DRIVER_RESTART_INTERVAL cfg =? 0) eqn:Hm; simpl.
  - apply Z.eqb_eq in Hm. auto.
  - apply Z.eqb_neq in Hm. auto.
Qed.

(** X14.  The driver is restarted between pages only, and exactly for the
    pages whose number is a multiple of the restart interval: in the
    chronological list of restarts and fetches every restart is directly
    followed by the fetch of the page it carries the number of, that
    number is a multiple of the interval, and every fetch not preceded by
    a restart has a number that is not.  With a positive interval the
    number of restarts is the number of pages fetched divided by the
    interval, rounded down. *)
Theorem restart_cadence (cfg : Config) (W : World) (fuel : nat)
    (db0 : option (gmap string Row)) :
  let tr := trace (env (crawl_website cfg W fuel db0).2) in
  schedule_ok (DRIVER_RESTART_INTERVAL cfg) (schedule tr)
  /\ (forall r, r ∈ restarts tr ->
        1 <= r <= Z.of_nat (length (fetched_urls tr))
        /\ r mod DRIVER_RESTART_INTERVAL cfg = 0)
  /\ (0 < DRIVER_RESTART_INTERVAL cfg ->
      Z.of_nat (length (restarts tr))
      = Z.of_nat (length (fetched_urls tr)) / DRIVER_RESTART_INTERVAL cfg).
Proof.
  intros tr. subst tr.
  destruct (run_history cfg W fuel db0) as (c & HP & _).
  pose proof (Pages_fetched_length _ _ _ HP) as Hlen. rewrite Hlen.
  split; [eapply Pages_schedule_ok; exact HP|].
  apply Pages_restarts. exact HP.
Qed.

Lemma restart_cadence_witness :
  0 < DRIVER_RESTART_INTERVAL Demo.cfg
  /\ Z.of_nat (length (restarts (trace (env (crawl_website Demo.cfg Demo.site 10 (Some ∅)).2))))
     = Z.of_nat (length (fetched_urls
                   (trace (env (crawl_website Demo.cfg Demo.site 10 (Some ∅)).2))))
       / DRIVER_RESTART_INTERVAL Demo.cfg.
Proof.
  split; [reflexivity|].
  apply (proj2 (proj2 (restart_cadence Demo.cfg Demo.site 10 (Some ∅)))). reflexivity.
Defined.

Lemma Pages_interval (cfg : Config) (tr : list Event) (c : Z) :
  Pages cfg tr c -> DRIVER_RESTART_INTERVAL cfg = 0 -> tr = [] /\ c = 0.
Proof. destruct 1; [auto|contradiction]. Qed.

(** X15.  A restart interval of 0 stops the crawl at the first page: the
    remainder by zero raises before anything is fetched, so the history
    of every run stays empty; and a run that got past start-up with an
    eligible seed, a depth limit of at least 0 and at least one pass of
    the loop ends aborted, with the seed counted and marked visited but
    not scraped. *)
Theorem zero_interval_aborts_first_page (cfg : Config) (W : World) (fuel : nat)
    (db0 : option (gmap string Row)) :
  DRIVER_RESTART_INTERVAL cfg = 0 ->
  trace (env (crawl_website cfg W fuel db0).2) = []
  /\ (is_Some (startup W (initial cfg db0)) ->
      is_valid_url (SKIP_KEYWORDS cfg) (PyStr.rstrip_slash (START_URL cfg))
        (DOMAIN cfg) ∅ = true ->
      0 <= MAX_DEPTH cfg ->
      (crawl_website cfg W (S fuel) db0).1 = Aborted
      /\ pages_scraped_count (crawl_website cfg W (S fuel) db0).2 = 1
      /\ visited_urls (crawl_website cfg W (S fuel) db0).2
         = ∅ ∪ {[ PyStr.rstrip_slash (START_URL cfg) ]}
      /\ urls_to_visit (crawl_website cfg W (S fuel) db0).2 = []).
Proof.
  intros Hz. split.
  - destruct (run_history cfg W fuel db0) as (c & HP & _).
    apply (Pages_interval _ _ _ HP Hz).
  - intros [s0 Hs] Hv Hd. unfold crawl_website. rewrite Hs.
    apply (startup_spec cfg) in Hs as (Hq & Hvis & Hn & _).
    simpl. unfold loop_iter. rewrite Hq, Hvis, Hn, Hv.
    assert (Hl : (PAGE_LIMIT cfg >? 0) && (0 >=? PAGE_LIMIT cfg) = false).
    { destruct (PAGE_LIMIT cfg >? 0) eqn:E1; [|reflexivity].
      rewrite Z.gtb_ltb in E1. apply Z.ltb_lt in E1.
      simpl. rewrite Z.geb_leb. apply Z.leb_gt. exact E1. }
    rewrite Hl.
    assert (Hdepth : (0 >? MAX_DEPTH cfg) = false)
      by (rewrite Z.gtb_ltb; apply Z.ltb_ge; exact Hd).
    rewrite Hdepth. simpl. unfold periodic_restart. rewrite Hz. simpl. auto.
Qed.

Lemma zero_interval_aborts_first_page_witness :
  DRIVER_RESTART_INTERVAL (mkConfig "http://x" 1 [] 0 2 0) = 0
  /\ trace (env (crawl_website (mkConfig "http://x" 1 [] 0 2 0) Demo.site 10 (Some ∅)).2)
     = [].
Proof.
  split; [reflexivity|].
  apply (proj1 (zero_interval_aborts_first_page (mkConfig "http://x" 1 [] 0 2 0)
                  Demo.site 10 (Some ∅) eq_refl)).
Defined.

(** X16.  The crawl is breadth first.  Pages are handed to the retry
    routine in order of non-decreasing depth; at every moment the
    frontier is ordered by depth, its entries differ in depth by at most
    one, and none of them is shallower than a page already fetched. *)
Theorem breadth_first_order (cfg : Config) (W : World) (fuel : nat)
    (db0 : option (gmap string Row)) :
  let s := (crawl_website cfg W fuel db0).2 in
  let tr := trace (env s) in
  StronglySorted (fun a b : Z => b <= a) (fetched_depths tr)
  /\ StronglySorted (fun a b : string * Z => a.2 <= b.2) (urls_to_visit s)
  /\ (forall a b : string * Z,
        a ∈ urls_to_visit s -> b ∈ urls_to_visit s -> b.2 <= a.2 + 1)
  /\ (forall (d : Z) (a : string * Z),
        d ∈ fetched_depths tr -> a ∈ urls_to_visit s -> d <= a.2).
Proof.
  intros s tr. subst s tr.
  destruct (crawl_shape cfg W fuel db0)
    as [[_ ->]|[(_ & _ & _ & HG & _)|(_ & _ & s1 & _ & HG & Hfrom)]].
  - simpl. split; [constructor|]. split; [repeat constructor|]. split.
    + intros a b Ha Hb. apply list_elem_of_singleton in Ha, Hb. subst. simpl. lia.
    + intros d a Hd. inversion Hd.
  - destruct HG. auto.
  - destruct Hfrom as (cu & cd & rest & Hq & _ & _ & _ & _ & ->). simpl.
    destruct HG as [_ _ _ _ Gs Gspan Gb Gfs _ _ _ _ _ _].
    rewrite Hq in Gs, Gspan, Gb.
    split; [exact Gfs|]. split; [inversion Gs; assumption|]. split.
    + intros a b Ha Hb. apply Gspan; right; assumption.
    + intros d a Hd Ha. apply Gb; [exact Hd|right; exact Ha].
Qed.

(** X17.  Past start-up the [pages] table holds exactly the rows of the
    upserts of this run that succeeded, whatever it held before: a row is
    in the table under a key exactly when a record with that URL was
    upserted successfully, and it is the row of that record.  Its key is
    a fetched URL, its depth lies between 0 and [MAX_DEPTH], its status
    is one of the three, and the table has no more rows than pages were
    counted. *)
Theorem pages_table_is_the_successful_upserts (cfg : Config) (W : World) (fuel : nat)
    (db0 : option (gmap string Row)) :
  is_Some (startup W (initial cfg db0)) ->
  let s := (crawl_website cfg W fuel db0).2 in
  let tr := trace (env s) in
  exists tb,
    committed (conn (env s)) = Some tb
    /\ (forall k r, tb !! k = Some r <->
          exists d, EvUpsert d true ∈ tr /\ url d = k /\ r = row_of d)
    /\ (forall k r, tb !! k = Some r ->
          k ∈ fetched_urls tr
          /\ 0 <= col_page_depth r <= MAX_DEPTH cfg
          /\ (col_status r = "success" \/ col_status r = "failed"
              \/ col_status r = "error"))
    /\ Z.of_nat (size tb) <= pages_scraped_count s.
Proof.
  intros Hstart s tr. subst s tr.
  destruct (run_history cfg W fuel db0) as (c & HP & _ & Hf & _ & Hsize & _ & Hd).
  assert (Hgood : exists tb,
            committed (conn (env (crawl_website cfg W fuel db0).2)) = Some tb
            /\ (forall k r, tb !! k = Some r ->
                  exists d, EvUpsert d true ∈ trace (env (crawl_website cfg W fuel db0).2)
                            /\ url d = k /\ r = row_of d)
            /\ (forall d, EvUpsert d true ∈ trace (env (crawl_website cfg W fuel db0).2) ->
                  tb !! url d = Some (row_of d))).
  { destruct (crawl_shape cfg W fuel db0)
      as [[Hnone _]|[(_ & _ & _ & HG & _)|(_ & _ & s1 & _ & HG & Hfrom)]].
    - rewrite Hnone in Hstart. destruct Hstart; discriminate.
    - destruct HG. destruct good_table0 as [tb Htb]. exists tb. eauto.
    - destruct Hfrom as (cu & cd & rest & _ & _ & _ & _ & _ & ->). simpl.
      destruct HG. destruct good_table0 as [tb Htb]. exists tb. eauto. }
  destruct Hgood as (tb & Htb & Hrows & Hstored).
  exists tb. split; [exact Htb|].
  assert (Hrow : forall k r, tb !! k = Some r ->
            k ∈ fetched_urls (trace (env (crawl_website cfg W fuel db0).2))
            /\ 0 <= col_page_depth r <= MAX_DEPTH cfg
            /\ (col_status r = "success" \/ col_status r = "failed"
                \/ col_status r = "error")).
  { intros k r Hk. destruct (Hrows k r Hk) as (d & Hin & <- & ->).
    destruct (Pages_upsert _ _ _ _ _ HP Hin) as (Hs & n & Hn).
    split; [apply elem_of_fetched_urls; eauto|]. split; [exact (Hd _ _ _ Hn)|exact Hs]. }
  split; [|split; [exact Hrow|]].
  - intros k r. split; [apply Hrows|]. intros (d & Hin & <- & ->). apply Hstored. exact Hin.
  - rewrite Hsize. apply inj_le. rewrite <- size_dom.
    apply subseteq_size. intros k Hk. apply elem_of_dom in Hk as [r Hr].
    destruct (Hrow k r Hr) as (Hin & _). apply Hf in Hin. tauto.
Qed.

Lemma pages_table_is_the_successful_upserts_witness :
  is_Some (startup Demo.flaky_db (initial Demo.cfg (Some ∅)))
  /\ exists tb,
       committed (conn (env (crawl_website Demo.cfg Demo.flaky_db 10 (Some ∅)).2)) = Some tb
       /\ Z.of_nat (size tb)
          <= pages_scraped_count (crawl_website Demo.cfg Demo.flaky_db 10 (Some ∅)).2.
Proof.
  assert (H : is_Some (startup Demo.flaky_db (initial Demo.cfg (Some ∅))))
    by (eexists; reflexivity).
  split; [exact H|].
  destruct (pages_table_is_the_successful_upserts Demo.cfg Demo.flaky_db 10 (Some ∅) H)
    as (tb & Htb & _ & _ & Hsz).
  exists tb. split; [exact Htb|exact Hsz].
Defined.

(** X18.  The frontier never holds a page twice (no two entries have the
    same URL up to trailing slashes), and no enqueued link is lost: with
    a start URL that has a network location, in a run that was not
    aborted every link ever enqueued is either still in the frontier or
    was handed to the retry routine at the depth it was enqueued with;
    so when a run without page limit finishes, every enqueued link has
    been fetched. *)
Theorem no_enqueued_link_is_lost (cfg : Config) (W : World) (fuel : nat)
    (db0 : option (gmap string Row)) :
  let r := crawl_website cfg W fuel db0 in
  let tr := trace (env r.2) in
  NoDup (map norm (urls_to_visit r.2))
  /\ (DOMAIN cfg <> EmptyString -> r.1 <> Aborted ->
      forall c d p, EvEnqueue c d p ∈ tr ->
        (c, d) ∈ urls_to_visit r.2
        \/ exists n, EvScrape n (PyStr.rstrip_slash c) d ∈ tr)
  /\ (DOMAIN cfg <> EmptyString -> r.1 = Finished -> PAGE_LIMIT cfg <= 0 ->
      forall c d p, EvEnqueue c d p ∈ tr ->
        exists n, EvScrape n (PyStr.rstrip_slash c) d ∈ tr).
Proof.
  intros r tr. subst r tr.
  destruct (crawl_shape cfg W fuel db0)
    as [[_ ->]|[(_ & Hna & _ & HG & Hfin)|(_ & Hab & s1 & _ & HG & Hfrom)]].
  - simpl. split; [apply NoDup_singleton|].
    split; intros; exfalso; eapply not_elem_of_nil; eassumption.
  - destruct HG. split; [assumption|].
    split; [intros Hdom _; apply good_enqueued0; exact Hdom|].
    intros Hdom Hf Hl c d p Hin.
    destruct (Hfin Hf) as [Hq|[Hp _]]; [|lia].
    destruct (good_enqueued0 Hdom c d p Hin) as [Hmem|Hdone]; [|exact Hdone].
    rewrite Hq in Hmem. inversion Hmem.
  - destruct Hfrom as (cu & cd & rest & Hq & _ & _ & _ & _ & Heq).
    rewrite Hab. split.
    + rewrite Heq. simpl. destruct HG. rewrite Hq in good_nodup0. simpl in good_nodup0.
      apply NoDup_cons in good_nodup0. tauto.
    + split; [intros _ H; contradiction|intros _ H; discriminate].
Qed.

Lemma no_enqueued_link_is_lost_witness :
  DOMAIN Demo.cfg <> EmptyString
  /\ (crawl_website Demo.cfg Demo.site 10 (Some ∅)).1 = Finished
  /\ PAGE_LIMIT Demo.cfg <= 0
  /\ (forall c d p,
        EvEnqueue c d p ∈ trace (env (crawl_website Demo.cfg Demo.site 10 (Some ∅)).2) ->
        exists n, EvScrape n (PyStr.rstrip_slash c) d
                    ∈ trace (env (crawl_website Demo.cfg Demo.site 10 (Some ∅)).2)).
Proof.
  split; [discriminate|]. split; [vm_compute; reflexivity|]. split; [simpl; lia|].
  apply (proj2 (proj2 (no_enqueued_link_is_lost Demo.cfg Demo.site 10 (Some ∅))));
    [discriminate|vm_compute; reflexivity|simpl; lia].
Defined.



(* ===================================================================== *)
(** ** Termination of the crawl loop *)
(* ===================================================================== *)

Lemma passes_pos (B k : nat) : (1 <= passes B k)%nat.
Proof. destruct k; simpl; lia. Qed.

Lemma potential_app (cfg : Config) (B : nat) (q1 q2 : list (string * Z)) :
  potential cfg B (q1 ++ q2) = (potential cfg B q1 + potential cfg B q2)%nat.
Proof. unfold potential. rewrite map_app, list_sum_app. reflexivity. Qed.

Lemma potential_same_depth (cfg : Config) (B : nat) (d : Z) (added : list string) :
  potential cfg B (map (fun c => (c, d)) added) = (length added * weight cfg B d)%nat.
Proof.
  unfold potential. induction added as [|c added IH]; simpl; [reflexivity|].
  rewrite IH. reflexivity.
Qed.

Lemma weight_step (cfg : Config) (B : nat) (d : Z) :
  d < MAX_DEPTH cfg ->
  weight cfg B d = (1 + B * weight cfg B (d + 1))%nat.
Proof.
  intros Hd. unfold weight.
  replace (Z.to_nat (MAX_DEPTH cfg - d)) with (S (Z.to_nat (MAX_DEPTH cfg - (d + 1))))
    by lia.
  reflexivity.
Qed.

Section Termination.

Context (cfg : Config) (W : World) (B : nat).

Hypothesis links_bounded : forall u k, (length (page_links W u k) <= B)%nat.

Lemma loop_iter_potential (s s' : Crawl) :
  loop_iter cfg W s = (Running, s') ->
  (potential cfg B (urls_to_visit s') < potential cfg B (urls_to_visit s))%nat.
Proof.
  intros Hstep.
  destruct (loop_iter_full cfg W s) as [[_ H]|[(_ & _ & _ & H)|H]];
    try (rewrite H in Hstep; discriminate).
  destruct H as (cu & cd & rest & Hq & _ & [[H _]|(_ & _ & [[_ H]|H])]).
  - rewrite H in Hstep. injection Hstep as <-. rewrite Hq. simpl.
    change (potential cfg B rest < weight cfg B cd + potential cfg B rest)%nat.
    pose proof (passes_pos B (Z.to_nat (MAX_DEPTH cfg - cd))). unfold weight. lia.
  - rewrite H in Hstep. discriminate.
  - destruct H as (n & d & stored & added & e' & k & H & _ & _ & _ & _ & _ & _ & _
                   & Hlen & Hdeep & _).
    rewrite H in Hstep. injection Hstep as <-. rewrite Hq. simpl.
    change (potential cfg B (rest ++ map (fun c => (c, (cd + 1)%Z)) added)
            < weight cfg B cd + potential cfg B rest)%nat.
    rewrite potential_app, potential_same_depth.
    destruct added as [|a added].
    + simpl. pose proof (passes_pos B (Z.to_nat (MAX_DEPTH cfg - cd))).
      unfold weight. lia.
    + rewrite (weight_step cfg B cd) by (apply Hdeep; discriminate).
      pose proof (links_bounded (PyStr.rstrip_slash cu) k) as Hb.
      assert (length (a :: added) * weight cfg B (cd + 1)%Z
              <= B * weight cfg B (cd + 1)%Z)%nat
        by (apply Nat.mul_le_mono_r; lia).
      lia.
Qed.

Lemma loop_terminates (fuel : nat) (s : Crawl) :
  (potential cfg B (urls_to_visit s) < fuel)%nat ->
  (loop cfg W fuel s).1 <> Running.
Proof.
  revert s. induction fuel as [|fuel IH]; intros s Hp; [lia|]. simpl.
  destruct (loop_iter cfg W s) as [st s'] eqn:Hstep.
  destruct st; simpl; try discriminate.
  apply IH. apply loop_iter_potential in Hstep. lia.
Qed.

End Termination.

Lemma loop_stable (cfg : Config) (W : World) (fuel k : nat) (s : Crawl) :
  (loop cfg W fuel s).1 <> Running ->
  loop cfg W (fuel + k) s = loop cfg W fuel s.
Proof.
  revert s. induction fuel as [|fuel IH]; intros s H; simpl in *; [contradiction|].
  destruct (loop_iter cfg W s) as [st s'] eqn:Hstep.
  destruct st; [apply IH; exact H|reflexivity|reflexivity].
Qed.

(** X20.  The crawl loop terminates on every site whose pages have a
    bounded number of links.  When no page yields more than [B] links,
    the loop ends (normally or aborted) within
    [1 + B + B^2 + ... + B^MAX_DEPTH] passes and one more, and unrolling
    it further does not change the result: the run has one outcome. *)
Theorem crawl_terminates (cfg : Config) (W : World) (B : nat)
    (db0 : option (gmap string Row)) (fuel : nat) :
  (forall u k, (length (page_links W u k) <= B)%nat) ->
  (passes B (Z.to_nat (MAX_DEPTH cfg)) < fuel)%nat ->
  (crawl_website cfg W fuel db0).1 <> Running
  /\ crawl_website cfg W fuel db0
     = crawl_website cfg W (S (passes B (Z.to_nat (MAX_DEPTH cfg)))) db0.
Proof.
  intros Hb Hfuel. unfold crawl_website.
  destruct (startup W (initial cfg db0)) as [s0|] eqn:Hs;
    [|split; [discriminate|reflexivity]].
  apply (startup_spec cfg) in Hs as (Hq & _).
  assert (Hpot : potential cfg B (urls_to_visit s0) = passes B (Z.to_nat (MAX_DEPTH cfg))).
  { rewrite Hq. unfold potential, weight. simpl. rewrite Z.sub_0_r. lia. }
  assert (Hstop : (loop cfg W (S (passes B (Z.to_nat (MAX_DEPTH cfg)))) s0).1 <> Running).
  { apply (loop_terminates cfg W B Hb). rewrite Hpot. lia. }
  replace fuel with (S (passes B (Z.to_nat (MAX_DEPTH cfg)))
                     + (fuel - S (passes B (Z.to_nat (MAX_DEPTH cfg)))))%nat by lia.
  rewrite (loop_stable cfg W _ _ s0 Hstop). split; [exact Hstop|reflexivity].
Qed.

Lemma crawl_terminates_witness :
  (forall u k, (length (page_links Demo.site u k) <= 6)%nat)
  /\ (passes 6 (Z.to_nat (MAX_DEPTH Demo.cfg)) < 8)%nat
  /\ (crawl_website Demo.cfg Demo.site 8 (Some ∅)).1 <> Running.
Proof.
  assert (Hb : forall u k, (length (page_links Demo.site u k) <= 6)%nat).
  { intros u k. simpl. destruct (String.eqb u "http://x"); simpl; lia. }
  split; [exact Hb|]. split; [simpl; lia|].
  apply (crawl_terminates Demo.cfg Demo.site 6 (Some ∅) 8 Hb). simpl; lia.
Defined.

(** X21.  The two limits.  A run ends normally only past start-up, and
    only when the frontier is empty or when exactly [PAGE_LIMIT] pages
    have been counted and scraped; a page limit of 0 or less is no
    limit, the run then ends normally only with an empty frontier.  A
    negative [MAX_DEPTH] excludes even the seed: nothing is scraped and
    no page is counted. *)
Theorem limits_end_the_run (cfg : Config) (W : World) (fuel : nat)
    (db0 : option (gmap string Row)) :
  let r := crawl_website cfg W fuel db0 in
  (r.1 = Finished ->
   is_Some (startup W (initial cfg db0))
   /\ (urls_to_visit r.2 = []
       \/ (0 < PAGE_LIMIT cfg
           /\ pages_scraped_count r.2 = PAGE_LIMIT cfg
           /\ Z.of_nat (length (fetched_urls (trace (env r.2)))) = PAGE_LIMIT cfg)))
  /\ (PAGE_LIMIT cfg <= 0 -> r.1 = Finished -> urls_to_visit r.2 = [])
  /\ (MAX_DEPTH cfg < 0 ->
      trace (env r.2) = [] /\ pages_scraped_count r.2 = 0).
Proof.
  intros r. subst r.
  assert (Hfin : (crawl_website cfg W fuel db0).1 = Finished ->
            is_Some (startup W (initial cfg db0))
            /\ (urls_to_visit (crawl_website cfg W fuel db0).2 = []
                \/ (0 < PAGE_LIMIT cfg
                    /\ pages_scraped_count (crawl_website cfg W fuel db0).2
                       = PAGE_LIMIT cfg
                    /\ Z.of_nat (length (fetched_urls
                          (trace (env (crawl_website cfg W fuel db0).2))))
                       = PAGE_LIMIT cfg))).
  { intros Hf.
    destruct (crawl_shape cfg W fuel db0)
      as [[_ Heq]|[(Hs & _ & _ & HG & Hfin)|(_ & Hab & _)]].
    - rewrite Heq in Hf. discriminate.
    - split; [exact Hs|]. destruct (Hfin Hf) as [Hq|[Hp Hle]]; [auto|]. right.
      destruct HG. specialize (good_limit0 Hp).
      apply Pages_fetched_length in good_pages0.
      split; [exact Hp|]. split; lia.
    - congruence. }
  split; [exact Hfin|]. split.
  - intros Hl Hf. destruct (Hfin Hf) as (_ & [Hq|(Hp & _)]); [exact Hq|lia].
  - intros Hneg.
    destruct (run_history cfg W fuel db0) as (c & HP & Hc & _ & _ & _ & _ & Hd).
    assert (Hnil : trace (env (crawl_website cfg W fuel db0).2) = []).
    { inversion HP as [|tr c0 nu cd n d stored added HP0 Hz Hn Hu Hdep Hst Htr Hceq];
        [reflexivity|].
      exfalso.
      assert (Hin : EvScrape (c0 + 1) nu cd
                      ∈ trace (env (crawl_website cfg W fuel db0).2)).
      { rewrite <- Htr. apply elem_of_app. left. unfold page_events.
        apply elem_of_app. right. right. apply elem_of_app. right. left. }
      apply Hd in Hin. lia. }
    split; [exact Hnil|].
    rewrite Hnil in HP. inversion HP as [Hc0| ]; subst.
    2:{ exfalso. match goal with H : _ ++ _ = [] |- _ =>
          apply app_eq_nil in H as [H _]; unfold page_events in H;
          apply app_eq_nil in H as [_ H]; discriminate end. }
    destruct Hc as [Hc|[Hab Hc]]; [exact Hc|]. exfalso.
    destruct (crawl_shape cfg W fuel db0)
      as [[_ Heq]|[(_ & Hna & _)|(_ & _ & s1 & HI & _ & Hfrom)]].
    + rewrite Heq in Hc. simpl in Hc. lia.
    + contradiction.
    + destruct Hfrom as (cu & cd & rest & Hq & _ & _ & Hdepth & _).
      assert (Hin : (cu, cd) ∈ urls_to_visit s1) by (rewrite Hq; left).
      destruct (inv_queue _ _ HI _ _ Hin) as [[_ ->]|[p Hp]]; [lia|].
      destruct (inv_enqueue _ _ HI _ _ _ Hp) as (m & dp & Hs & -> & _).
      apply (inv_fetch _ _ HI) in Hs. lia.
Qed.

Lemma limits_end_the_run_witness :
  MAX_DEPTH (mkConfig "http://x" (-1) [] 2 2 0) < 0
  /\ trace (env (crawl_website (mkConfig "http://x" (-1) [] 2 2 0) Demo.site 10 (Some ∅)).2)
     = [].
Proof.
  split; [reflexivity|].
  apply (proj2 (proj2 (limits_end_the_run (mkConfig "http://x" (-1) [] 2 2 0)
                         Demo.site 10 (Some ∅)))).
  reflexivity.
Defined.

(* ===================================================================== *)
(** ** The stored text (lines 259-264) *)
(* ===================================================================== *)

Lemma lstrip_starts_clean (s : string) : starts_clean (PyStr.lstrip s) = true.
Proof.
  induction s as [|c s IH]; [reflexivity|].
  simpl. destruct (PyStr.is_space c) eqn:E; [exact IH|].
  simpl. rewrite E. reflexivity.
Qed.

Lemma starts_clean_lstrip (s : string) :
  starts_clean s = true -> PyStr.lstrip s = s.
Proof.
  destruct s as [|c s]; [reflexivity|].
  simpl. destruct (PyStr.is_space c); [discriminate|reflexivity].
Qed.

Lemma rstrip_starts_clean (s : string) :
  starts_clean s = true -> starts_clean (PyStr.rstrip s) = true.
Proof.
  destruct s as [|c s]; [reflexivity|].
  simpl. intros Hc. destruct (PyStr.rstrip s).
  - destruct (PyStr.is_space c) eqn:E; [discriminate|]. simpl. rewrite E. reflexivity.
  - exact Hc.
Qed.

Lemma rstrip_idem (s : string) : PyStr.rstrip (PyStr.rstrip s) = PyStr.rstrip s.
Proof.
  induction s as [|c s IH]; [reflexivity|].
  simpl. destruct (PyStr.rstrip s) as [|c' r] eqn:E.
  - destruct (PyStr.is_space c) eqn:Ec; [reflexivity|].
    simpl. rewrite Ec. reflexivity.
  - change (PyStr.rstrip (String c (String c' r))) with
      (match PyStr.rstrip (String c' r) with
       | EmptyString => if PyStr.is_space c then EmptyString else String c EmptyString
       | r' => String c r'
       end).
    rewrite IH. reflexivity.
Qed.

Lemma strip_idem (s : string) : PyStr.strip (PyStr.strip s) = PyStr.strip s.
Proof.
  unfold PyStr.strip.
  rewrite (starts_clean_lstrip (PyStr.rstrip (PyStr.lstrip s))).
  - apply rstrip_idem.
  - apply rstrip_starts_clean, lstrip_starts_clean.
Qed.

Lemma lstrip_no_newline (s : string) :
  no_newline s = true -> no_newline (PyStr.lstrip s) = true.
Proof.
  induction s as [|c s IH]; [reflexivity|].
  intros H. simpl. destruct (PyStr.is_space c); [|exact H].
  simpl in H. apply andb_true_iff in H as [_ H]. auto.
Qed.

Lemma rstrip_no_newline (s : string) :
  no_newline s = true -> no_newline (PyStr.rstrip s) = true.
Proof.
  induction s as [|c s IH]; [reflexivity|].
  intros H. simpl in H. apply andb_true_iff in H as [Hc Hs].
  specialize (IH Hs). simpl. destruct (PyStr.rstrip s) as [|c' r].
  - destruct (PyStr.is_space c); [reflexivity|]. simpl. rewrite Hc. reflexivity.
  - change (no_newline (String c (String c' r)))
      with (negb (Ascii.eqb c "010"%char) && no_newline (String c' r)).
    rewrite Hc, IH. reflexivity.
Qed.

Lemma split_lines_no_newline (s : string) :
  List.Forall (fun l => no_newline l = true) (Soup.split_lines s).
Proof.
  induction s as [|c s IH]; simpl.
  - constructor; [reflexivity|constructor].
  - destruct (Ascii.eqb c "010"%char) eqn:E.
    + constructor; [reflexivity|exact IH].
    + destruct (Soup.split_lines s) as [|l ls].
      * constructor; [simpl; rewrite E; reflexivity|constructor].
      * inversion IH; subst. constructor; [simpl; rewrite E; auto|auto].
Qed.

Lemma split_lines_line (p t : string) :
  no_newline p = true ->
  Soup.split_lines (p ++ String "010"%char t)%string = p :: Soup.split_lines t.
Proof.
  induction p as [|c p IH]; intros H; [reflexivity|].
  simpl in H. apply andb_true_iff in H as [Hc Hp].
  apply negb_true_iff in Hc.
  change (Soup.split_lines (String c (p ++ String "010"%char t)%string)
          = String c p :: Soup.split_lines t).
  simpl. rewrite Hc, (IH Hp). reflexivity.
Qed.

Lemma split_lines_single (p : string) :
  no_newline p = true -> Soup.split_lines p = [p].
Proof.
  induction p as [|c p IH]; intros H; [reflexivity|].
  simpl in H. apply andb_true_iff in H as [Hc Hp].
  apply negb_true_iff in Hc. simpl. rewrite Hc, (IH Hp). reflexivity.
Qed.

(** Splitting what was joined with line feeds gives the lines back. *)
Lemma split_lines_join (ls : list string) :
  ls <> [] -> List.Forall (fun l => no_newline l = true) ls ->
  Soup.split_lines (Soup.join (String "010"%char EmptyString) ls) = ls.
Proof.
  induction ls as [|p ls IH]; [congruence|].
  intros _ HF. inversion HF as [|? ? Hp HF']; subst.
  destruct ls as [|q ls].
  - simpl. apply split_lines_single, Hp.
  - change (Soup.join (String "010"%char EmptyString) (p :: q :: ls))
      with (p ++ String "010"%char (Soup.join (String "010"%char EmptyString) (q :: ls)))%string.
    rewrite (split_lines_line _ _ Hp), IH; [reflexivity|discriminate|exact HF'].
Qed.

(** The lines line 262 keeps: none is empty, none has white space at
    either end, none holds a line feed. *)
Lemma kept_lines_spec (text : string) :
  List.Forall (fun l => clean_line l /\ no_newline l = true)
    (List.filter PyStr.truthy (map PyStr.strip (Soup.split_lines text))).
Proof.
  apply List.Forall_forall. intros l Hin.
  apply List.filter_In in Hin as [Hin Ht].
  apply List.in_map_iff in Hin as (l0 & <- & Hin0).
  split; [split; [exact Ht|apply strip_idem]|].
  unfold PyStr.strip. apply rstrip_no_newline, lstrip_no_newline.
  pose proof (split_lines_no_newline text) as HF.
  rewrite List.Forall_forall in HF. apply HF, Hin0.
Qed.

Lemma filter_map_clean (ls : list string) :
  List.Forall (fun l => clean_line l /\ no_newline l = true) ls ->
  List.filter PyStr.truthy (map PyStr.strip ls) = ls.
Proof.
  induction 1 as [|l ls [[Ht Hs] _] _ IH]; [reflexivity|].
  simpl. rewrite Hs, Ht, IH. reflexivity.
Qed.

(** X22.  The stored text of a page has no blank line and no line with
    white space at either end: it is empty, or every line of it is
    non-empty and unchanged by [strip].  Cleaning it again, as line 262
    does, changes nothing. *)
Theorem content_has_only_clean_lines (doc : Soup.Document) :
  let content := Soup.cleaned_content doc in
  (content = EmptyString
   \/ List.Forall clean_line (Soup.split_lines content))
  /\ Soup.join (String "010"%char EmptyString)
       (List.filter PyStr.truthy (map PyStr.strip (Soup.split_lines content)))
     = content.
Proof.
  intros content. subst content. unfold Soup.cleaned_content.
  destruct (Soup.find "body" doc) as [body|]; [|split; [left|]; reflexivity].
  pose proof (kept_lines_spec (Soup.get_text " " body)) as HF.
  destruct (List.filter PyStr.truthy
              (map PyStr.strip (Soup.split_lines (Soup.get_text " " body))))
    as [|l ls] eqn:E.
  - split; [left|]; reflexivity.
  - assert (Hsplit : Soup.split_lines
                       (Soup.join (String "010"%char EmptyString) (l :: ls)) = l :: ls).
    { apply split_lines_join; [discriminate|].
      eapply List.Forall_impl; [|exact HF]. intros a [_ Ha]. exact Ha. }
    rewrite Hsplit. split.
    + right. eapply List.Forall_impl; [|exact HF]. intros a [Ha _]. exact Ha.
    + rewrite (filter_map_clean _ HF). reflexivity.
Qed.
